(** * Lane_Detect: the control loop of [main.py]

    A shallow embedding of [src/main.py]: the operator-input thread
    ([handle_key_input]), the main [while True] loop with its [finally]
    block, [calculate_angle] and [send_angle_to_arduino].

    Modelling choices, all stated where they are used:
    - the three module globals [key_input_flag], [command], [paused] and
      the serial port [ser] are fields of one shared [State]; both threads
      act on that one state;
    - the two threads are modelled at two grains.  [Threads] follows the
      interpreter: a step is one statement of one thread, every read and
      every write of a global is a step of its own, the [finally] block
      runs call by call, and an interrupt may arrive before any
      statement.  [step] is the sequential reading, in which a handled
      input line and a pass of the main loop body do not overlap and the
      [finally] block runs to its end; [line_alone] and [pass_alone]
      relate the two;
    - the angle is modelled twice.  [F64] computes on binary64 floats as
      the program does, with the [atan2] of the C library as a parameter
      outside the cases that the C standard fixes.  [calculate_angle]
      computes the same expression in exact real arithmetic.  The
      [np.int32] coordinate differences wrap around in both;
    - the vertex arithmetic of [region_of_interest] is modelled on
      binary64 floats;
    - [filter_colors] is modelled pixel by pixel, with the colour
      conversion of OpenCV as a parameter;
    - the OpenCV image pipeline is outside the program: a pass of the loop
      receives the result of [cv2.HoughLinesP] and of [cv2.waitKey] from
      its environment;
    - console output and the display window are not modelled. *)

From Stdlib Require Import Bool Arith ZArith List String Ascii Lia.
From Stdlib Require Import DecimalString DecimalPos DecimalZ.
From Stdlib Require Import Reals Zfloor Lra.
From Stdlib Require Import Floats Uint63.
Import ListNotations.

Local Open Scope string_scope.

(** ** Python string helpers used by the listener *)

Module PyStr.

(** [str.isspace] on one character, for code points below 256:
    U+0009..U+000D, U+001C..U+0020, U+0085 and U+00A0. *)
Definition isspace (c : ascii) : bool :=
  let n := nat_of_ascii c in
  ((9 <=? n) && (n <=? 13) || (28 <=? n) && (n <=? 32)
   || (n =? 133) || (n =? 160))%nat.

(** [str.lower] on one character, for code points below 256: the ASCII
    capitals and the Latin-1 capitals U+00C0..U+00DE (without the
    multiplication sign U+00D7) move up by 32. *)
Definition lower_char (c : ascii) : ascii :=
  let n := nat_of_ascii c in
  if ((65 <=? n) && (n <=? 90)
      || (192 <=? n) && (n <=? 222) && negb (n =? 215))%nat
  then ascii_of_nat (n + 32) else c.

Fixpoint lower (s : string) : string :=
  match s with
  | EmptyString => EmptyString
  | String c s' => String (lower_char c) (lower s')
  end.

Fixpoint lstrip (s : string) : string :=
  match s with
  | EmptyString => EmptyString
  | String c s' => if isspace c then lstrip s' else s
  end.

Fixpoint rstrip (s : string) : string :=
  match s with
  | EmptyString => EmptyString
  | String c s' =>
      match rstrip s' with
      | EmptyString => if isspace c then EmptyString else String c EmptyString
      | r => String c r
      end
  end.

Definition strip (s : string) : string := rstrip (lstrip s).

(** The line feed character and [str(int)]. *)
Definition LF : string := String (ascii_of_nat 10) EmptyString.

Definition str_of_int (z : Z) : string := NilZero.string_of_int (Z.to_int z).

(** [x in [...]] on a list of strings. *)
Definition mem (x : string) (l : list string) : bool :=
  existsb (String.eqb x) l.

End PyStr.

(** ** Shared state *)

(** The serial port records the payload of every [ser.write] call, oldest
    first, one list element per call.  The camera counts the frames it
    handed out.  The release counters count the calls of the [finally]
    block. *)
Record State : Type := mkState {
  key_input_flag : bool;
  command : string;
  paused : bool;
  ser : list string;
  ser_closed : nat;
  picam2_captured : nat;
  picam2_stopped : nat;
  picam2_closed : nat;
  listener_running : bool;
  main_running : bool
}.

(** Module globals at lines 62-64, the serial port freshly opened, the
    camera started, the listener thread started, the main loop about to
    be entered. *)
Definition init : State :=
  mkState false "" false [] 0 0 0 0 true true.

Inductive ControlMode : Type := Autonomous | ManualPaused.

Definition mode (st : State) : ControlMode :=
  if paused st then ManualPaused else Autonomous.

Definition set_input (f : bool) (c : string) (st : State) : State :=
  mkState f c (paused st) (ser st) (ser_closed st) (picam2_captured st)
          (picam2_stopped st) (picam2_closed st) (listener_running st)
          (main_running st).

Definition set_flag (f : bool) (st : State) : State :=
  set_input f (command st) st.

Definition set_paused (p : bool) (st : State) : State :=
  mkState (key_input_flag st) (command st) p (ser st) (ser_closed st)
          (picam2_captured st) (picam2_stopped st) (picam2_closed st)
          (listener_running st) (main_running st).

(** [ser.write(payload)] *)
Definition ser_write (payload : string) (st : State) : State :=
  mkState (key_input_flag st) (command st) (paused st) (ser st ++ [payload])
          (ser_closed st) (picam2_captured st) (picam2_stopped st)
          (picam2_closed st) (listener_running st) (main_running st).

(** [picam2.capture_array()] *)
Definition capture_array (st : State) : State :=
  mkState (key_input_flag st) (command st) (paused st) (ser st)
          (ser_closed st) (S (picam2_captured st)) (picam2_stopped st)
          (picam2_closed st) (listener_running st) (main_running st).

(** The listener leaves its [while True] loop. *)
Definition stop_listener (st : State) : State :=
  mkState (key_input_flag st) (command st) (paused st) (ser st)
          (ser_closed st) (picam2_captured st) (picam2_stopped st)
          (picam2_closed st) false (main_running st).

(** ** Angle computation *)

Local Open Scope R_scope.

(** One element of the [HoughLinesP] result: [line[0]] is the quadruple
    [x1, y1, x2, y2] of [np.int32] values. *)
Definition Segment : Type := (Z * Z * Z * Z)%type.

(** The value of an [np.int32] operation whose exact result is [z]: [z]
    wrapped into the signed 32-bit range. *)
Definition wrap32 (z : Z) : Z :=
  ((z + 2147483648) mod 4294967296 - 2147483648)%Z.

(** The two-argument arctangent computed by [np.arctan2 y x], with values
    in the interval from [-PI] (excluded) to [PI] (included). *)
Definition arctan2 (y x : R) : R :=
  if Rlt_dec 0 x then atan (y / x)
  else if Rlt_dec x 0 then
    if Rle_dec 0 y then atan (y / x) + PI else atan (y / x) - PI
  else if Rlt_dec 0 y then PI / 2
  else if Rlt_dec y 0 then - (PI / 2)
  else 0.

(** [np.degrees] *)
Definition degrees (x : R) : R := x * (180 / PI).

(** The body of the [for line in lines] loop of [calculate_angle]; the
    two differences are [np.int32] subtractions. *)
Definition add_angle (angle_sum : R) (line : Segment) : R :=
  let '(x1, y1, x2, y2) := line in
  angle_sum + arctan2 (IZR (wrap32 (y2 - y1))) (IZR (wrap32 (x2 - x1))).

(** [calculate_angle(lines)] in exact arithmetic: what the expression of
    lines 116-126 denotes before any float64 rounding ([F64] has the
    rounding).  [None] is Python's [None], which [HoughLinesP] returns
    when it finds nothing. *)
Definition calculate_angle (lines : option (list Segment)) : R :=
  match lines with
  | None => 0
  | Some ls =>
      if (List.length ls =? 0)%nat then 0
      else
        let angle_sum := fold_left add_angle ls 0 in
        let angle_avg := angle_sum / INR (List.length ls) in
        degrees angle_avg
  end.

(** Python's [int(x)] on a float: the integer part, rounding toward zero. *)
Definition int_of_float (x : R) : Z :=
  if Rle_dec 0 x then Zfloor x else Zceil x.

Local Close Scope R_scope.

(** ** Command channel *)

(** The bytes of [f"A{int(angle)}\n".encode()]. *)
Definition angle_frame (angle : R) : string :=
  "A" ++ PyStr.str_of_int (int_of_float angle) ++ PyStr.LF.

Definition send_angle_to_arduino (angle : R) (st : State) : State :=
  ser_write (angle_frame angle) st.

Definition send_pause_resume_to_arduino (st : State) : State :=
  ser_write "p" st.

(** ** The listener thread *)

Definition drive_commands : list string :=
  ["w"; "s"; "a"; "d"; "x"; "+"; "-"].

(** One pass of the [while True] loop of [handle_key_input], on the line
    that [input()] returned. *)
Definition handle_key_input (line : string) (st : State) : State :=
  let user_input := PyStr.lower (PyStr.strip line) in
  if user_input =? "q" then
    stop_listener (set_input true "q" st)
  else if PyStr.mem user_input drive_commands then
    set_input true user_input st
  else if user_input =? "p" then
    send_pause_resume_to_arduino
      (set_flag true (set_paused (negb (paused st)) st))
  else st.

(** ** The main loop *)

Inductive Flow : Type := Continue | Break.

(** Lines 193-203: the pending-command poll at the head of the loop. *)
Definition poll (st : State) : Flow * State :=
  if key_input_flag st then
    if command st =? "q" then (Break, st)
    else if command st =? "p" then (Continue, set_flag false st)
    else (Continue, set_flag false (ser_write (command st) st))
  else (Continue, st).

(** Lines 212-247: capture, angle, send, and the window's key check.
    [lines] is what [HoughLinesP] returns for the captured frame and
    [key] what [cv2.waitKey(1)] returns. *)
Definition perceive (lines : option (list Segment)) (key : Z) (st : State)
  : Flow * State :=
  let st1 := capture_array st in
  let angle := calculate_angle lines in
  let st2 := send_angle_to_arduino angle st1 in
  if (Z.land key 255 =? 113)%Z then (Break, st2) else (Continue, st2).

(** One pass of the body of the main [while True]. *)
Definition loop_body (lines : option (list Segment)) (key : Z) (st : State)
  : Flow * State :=
  match poll st with
  | (Break, st') => (Break, st')
  | (Continue, st') =>
      if paused st' then (Continue, st')
      else perceive lines key st'
  end.

(** The [finally] block run to its end with the camera object bound and
    no call failing, after which the process exits ([Threads] runs it
    call by call). *)
Definition finally (st : State) : State :=
  mkState (key_input_flag st) (command st) (paused st) (ser st)
          (S (ser_closed st)) (picam2_captured st) (S (picam2_stopped st))
          (S (picam2_closed st)) (listener_running st) false.

(** ** Sequential interleaving of the two threads *)

(** The schedules in which the listener handles a line, and the main
    thread runs a pass of its loop, without the other thread running in
    between. *)
Inductive Event : Type :=
| Line (user_input : string)
| Iteration (lines : option (list Segment)) (key : Z)
| KeyboardInterrupt.

(** Once the main thread has left the [try] statement the process is gone
    (the listener is a daemon thread), so nothing happens any more.  A
    line typed after the listener has returned is not read. *)
Definition step (st : State) (ev : Event) : State :=
  if main_running st then
    match ev with
    | Line l => if listener_running st then handle_key_input l st else st
    | Iteration lines key =>
        match loop_body lines key st with
        | (Continue, st') => st'
        | (Break, st') => finally st'
        end
    | KeyboardInterrupt => finally st
    end
  else st.

Definition run (st : State) (evs : list Event) : State :=
  fold_left step evs st.

Definition reachable (st : State) : Prop :=
  exists evs, st = run init evs.

(** ** Frame preprocessing *)

(** Python floats where the code computes with them on integers it can
    represent: [float(n)] for an integer between 0 and 2^53, the product
    of two floats, and the integer part of a float toward zero, which is
    what both [int(x)] and the cast to [np.int32] take of a finite float
    ([trunc] is 0 on the infinities and on NaN, which no product below
    yields). *)
Module PyFloat.

Definition of_int (n : Z) : float := PrimFloat.of_uint63 (Uint63.of_Z n).

Definition trunc (x : float) : Z :=
  match Prim2SF x with
  | S754_finite s m e =>
      let v := Z.shiftl (Z.pos m) e in
      if s then (- v)%Z else v
  | _ => 0%Z
  end.

(** The doubles that the literals 0.1, 0.4, 0.6 and 0.9 denote. *)
Definition f0_1 : float := 0x1.999999999999ap-4%float.
Definition f0_4 : float := 0x1.999999999999ap-2%float.
Definition f0_6 : float := 0x1.3333333333333p-1%float.
Definition f0_9 : float := 0x1.ccccccccccccdp-1%float.
Definition f0_5 : float := 0.5%float.

(** [float(n)] for an [np.int32] or a list length, of either sign. *)
Definition of_Z (n : Z) : float :=
  if (n <? 0)%Z then PrimFloat.opp (of_int (- n)) else of_int n.

(** The doubles nearest to pi, pi/2 and pi/4, and [180.0 / pi], the
    factor of [np.degrees]. *)
Definition pi : float := 0x1.921fb54442d18p+1%float.
Definition half_pi : float := 0x1.921fb54442d18p+0%float.
Definition quarter_pi : float := 0x1.921fb54442d18p-1%float.
Definition rad2deg : float := PrimFloat.div 180%float pi.

(** [int(x)]: the integer part toward zero, and [None] where Python
    raises (NaN and the infinities). *)
Definition to_int (x : float) : option Z :=
  match Prim2SF x with
  | S754_zero _ => Some 0%Z
  | S754_finite _ _ _ => Some (trunc x)
  | _ => None
  end.

(** The real number a finite float stands for (0 for the others). *)
Definition to_R (x : float) : R :=
  match Prim2SF x with
  | S754_finite s m e =>
      let v := if (0 <=? e)%Z then (IZR (Z.pos m) * IZR (2 ^ e))%R
               else (IZR (Z.pos m) / IZR (2 ^ (- e)))%R in
      if s then (- v)%R else v
  | _ => 0%R
  end.

End PyFloat.

(** The [vertices] array of [region_of_interest] for a frame of the given
    [height] and [width] (lines 93-99): four (x, y) points as [np.int32]. *)
Definition roi_vertices (height width : Z) : list (Z * Z) :=
  [ (PyFloat.trunc (PrimFloat.mul (PyFloat.of_int width) PyFloat.f0_1),
     height);
    (PyFloat.trunc (PrimFloat.mul (PyFloat.of_int width) PyFloat.f0_4),
     PyFloat.trunc (PrimFloat.mul (PyFloat.of_int height) PyFloat.f0_5));
    (PyFloat.trunc (PrimFloat.mul (PyFloat.of_int width) PyFloat.f0_6),
     PyFloat.trunc (PrimFloat.mul (PyFloat.of_int height) PyFloat.f0_5));
    (PyFloat.trunc (PrimFloat.mul (PyFloat.of_int width) PyFloat.f0_9),
     height) ].

(** A colour pixel (three channels) and a colour image, row by row. *)
Definition Pixel : Type := (Z * Z * Z)%type.
Definition Image : Type := list (list Pixel).

(** Lines 44-48. *)
Definition yellow_min : Pixel := (20, 50, 185)%Z.
Definition yellow_max : Pixel := (36, 255, 255)%Z.

(** [cv2.inRange] on one pixel: 255 when every channel lies between the
    two bounds, both included, and 0 otherwise. *)
Definition inRange (p lo hi : Pixel) : Z :=
  let '(p1, p2, p3) := p in
  let '(l1, l2, l3) := lo in
  let '(h1, h2, h3) := hi in
  if ((l1 <=? p1) && (p1 <=? h1) && (l2 <=? p2) && (p2 <=? h2)
      && (l3 <=? p3) && (p3 <=? h3))%Z
  then 255%Z else 0%Z.

(** [cv2.bitwise_and(src1, src2, mask=m)] on one pixel: the channelwise
    conjunction where the mask is not 0, and 0 elsewhere. *)
Definition bitwise_and_masked (a b : Pixel) (m : Z) : Pixel :=
  let '(a1, a2, a3) := a in
  let '(b1, b2, b3) := b in
  if (m =? 0)%Z then (0, 0, 0)%Z
  else (Z.land a1 b1, Z.land a2 b2, Z.land a3 b3).

(** [filter_colors(image)].  [cvtColor_BGR2HSV] stands for
    [cv2.cvtColor(_, cv2.COLOR_BGR2HSV)], which works pixel by pixel. *)
Definition filter_colors (cvtColor_BGR2HSV : Pixel -> Pixel) (image : Image)
  : Image :=
  let image_hsv := map (map cvtColor_BGR2HSV) image in
  let yellow_mask :=
    map (map (fun p => inRange p yellow_min yellow_max)) image_hsv in
  map (fun '(row, mrow) =>
         map (fun '(p, m) => bitwise_and_masked p p m) (combine row mrow))
      (combine image yellow_mask).

(** ** The angle on binary64 *)

(** [calculate_angle] and the frame of [send_angle_to_arduino] as the
    program computes them, on float64.  [libm_atan2] stands for the
    [atan2] of the C library that numpy calls. *)
Module F64.

(** [np.arctan2(y, x)] on two [np.int32] values, which numpy converts to
    float64 exactly.  Where an argument is zero the C standard (Annex F)
    fixes the result: +0 for [y] = 0 and [x] >= 0, pi for [y] = 0 and
    [x] < 0, pi/2 and -pi/2 for [x] = 0; elsewhere the result is what the
    C library returns. *)
Definition arctan2 (libm_atan2 : float -> float -> float) (y x : Z) : float :=
  if (y =? 0)%Z then
    if (x <? 0)%Z then PyFloat.pi else 0%float
  else if (x =? 0)%Z then
    if (0 <? y)%Z then PyFloat.half_pi else PrimFloat.opp PyFloat.half_pi
  else libm_atan2 (PyFloat.of_Z y) (PyFloat.of_Z x).

(** [np.degrees] *)
Definition degrees (x : float) : float := PrimFloat.mul x PyFloat.rad2deg.

Definition add_angle (libm_atan2 : float -> float -> float)
           (angle_sum : float) (line : Segment) : float :=
  let '(x1, y1, x2, y2) := line in
  PrimFloat.add angle_sum
    (arctan2 libm_atan2 (wrap32 (y2 - y1)) (wrap32 (x2 - x1))).

Definition calculate_angle (libm_atan2 : float -> float -> float)
           (lines : option (list Segment)) : float :=
  match lines with
  | None => 0%float
  | Some ls =>
      if (List.length ls =? 0)%nat then 0%float
      else
        let angle_sum := fold_left (add_angle libm_atan2) ls 0%float in
        let angle_avg :=
          PrimFloat.div angle_sum (PyFloat.of_Z (Z.of_nat (List.length ls))) in
        degrees angle_avg
  end.

(** The bytes of [f"A{int(angle)}\n".encode()], or [None] when [int]
    raises. *)
Definition angle_frame (angle : float) : option string :=
  match PyFloat.to_int angle with
  | Some n => Some ("A" ++ PyStr.str_of_int n ++ PyStr.LF)
  | None => None
  end.

End F64.

(** ** The two threads statement by statement *)

(** The program as the interpreter runs it: each thread executes one
    statement at a time and the other thread may run between any two of
    them.  Every read and every write of a module global is a step of
    its own. *)
Module Threads.

(** Where the listener thread stands; the constructors name the
    statement of [handle_key_input] it executes next. *)
Inductive ListenerPc : Type :=
| L_unstarted
| L_input                          (* line 160, blocked in input() *)
| L_quit_flag                      (* line 164 *)
| L_quit_command                   (* line 165, then break *)
| L_drive_flag (c : string)        (* line 168 *)
| L_drive_command (c : string)     (* line 169 *)
| L_toggle_paused                  (* line 171 *)
| L_toggle_flag                    (* line 172 *)
| L_toggle_send                    (* line 173 *)
| L_returned.

(** Where the main thread stands. *)
Inductive MainPc : Type :=
| M_camera                         (* line 184 *)
| M_camera_start                   (* line 185 *)
| M_thread_start                   (* lines 188-189 *)
| M_flag                           (* line 193 *)
| M_quit_test                      (* line 194 *)
| M_toggle_test                    (* line 196 *)
| M_send_command                   (* lines 201-202 *)
| M_reset_flag                     (* line 203 *)
| M_paused_test                    (* line 206 *)
| M_capture                        (* line 212 *)
| M_detect                         (* lines 213-228 *)
| M_send_angle (lines : option (list Segment))   (* lines 231-234 *)
| M_wait_key                       (* lines 237-246 *)
| M_stop                           (* line 253 *)
| M_close                          (* line 254 *)
| M_destroy                        (* line 255 *)
| M_ser_close                      (* line 256 *)
| M_exited.

Record Program : Type := mkProgram {
  shared : State;
  listener : ListenerPc;
  main : MainPc;
  picam2_bound : bool;
  windows_destroyed : nat
}.

(** After the serial port has been opened (lines 33-38), at the [try]:
    the globals of lines 62-64, no camera object and no listener yet. *)
Definition boot : Program :=
  mkProgram (mkState false "" false [] 0 0 0 0 false true)
            L_unstarted M_camera false 0.

Definition update (f : State -> State) (l : ListenerPc) (m : MainPc)
           (p : Program) : Program :=
  mkProgram (f (shared p)) l m (picam2_bound p) (windows_destroyed p).

Definition goto_main (m : MainPc) (p : Program) : Program :=
  update (fun st => st) (listener p) m p.

Definition goto_listener (l : ListenerPc) (p : Program) : Program :=
  update (fun st => st) l (main p) p.

(** The single calls of the [finally] block and the end of the process. *)
Definition stop_camera (st : State) : State :=
  mkState (key_input_flag st) (command st) (paused st) (ser st)
          (ser_closed st) (picam2_captured st) (S (picam2_stopped st))
          (picam2_closed st) (listener_running st) (main_running st).

Definition close_camera (st : State) : State :=
  mkState (key_input_flag st) (command st) (paused st) (ser st)
          (ser_closed st) (picam2_captured st) (picam2_stopped st)
          (S (picam2_closed st)) (listener_running st) (main_running st).

Definition close_serial (st : State) : State :=
  mkState (key_input_flag st) (command st) (paused st) (ser st)
          (S (ser_closed st)) (picam2_captured st) (picam2_stopped st)
          (picam2_closed st) (listener_running st) (main_running st).

Definition end_main (st : State) : State :=
  mkState (key_input_flag st) (command st) (paused st) (ser st)
          (ser_closed st) (picam2_captured st) (picam2_stopped st)
          (picam2_closed st) (listener_running st) false.

Definition exit (p : Program) : Program :=
  update end_main (listener p) M_exited p.

(** [key_input_thread.start()] *)
Definition start_listener (st : State) : State :=
  mkState (key_input_flag st) (command st) (paused st) (ser st)
          (ser_closed st) (picam2_captured st) (picam2_stopped st)
          (picam2_closed st) true (main_running st).

(** The main thread executes its next statement.  [lines] is what
    [HoughLinesP] returns and [key] what [waitKey] returns, should this
    statement call them. *)
Definition main_tick (libm_atan2 : float -> float -> float)
           (lines : option (list Segment)) (key : Z) (p : Program) : Program :=
  let st := shared p in
  match main p with
  | M_camera =>
      mkProgram st (listener p) M_camera_start true (windows_destroyed p)
  | M_camera_start => goto_main M_thread_start p
  | M_thread_start => update start_listener L_input M_flag p
  | M_flag =>
      if key_input_flag st then goto_main M_quit_test p
      else goto_main M_paused_test p
  | M_quit_test =>
      if command st =? "q" then goto_main M_stop p
      else goto_main M_toggle_test p
  | M_toggle_test =>
      if command st =? "p" then goto_main M_reset_flag p
      else goto_main M_send_command p
  | M_send_command =>
      update (fun st => ser_write (command st) st) (listener p) M_reset_flag p
  | M_reset_flag => update (set_flag false) (listener p) M_paused_test p
  | M_paused_test =>
      if paused st then goto_main M_flag p else goto_main M_capture p
  | M_capture => update capture_array (listener p) M_detect p
  | M_detect => goto_main (M_send_angle lines) p
  | M_send_angle ls =>
      match F64.angle_frame (F64.calculate_angle libm_atan2 ls) with
      | Some payload => update (ser_write payload) (listener p) M_wait_key p
      | None => goto_main M_stop p
      end
  | M_wait_key =>
      if (Z.land key 255 =? 113)%Z then goto_main M_stop p
      else goto_main M_flag p
  | M_stop =>
      if picam2_bound p then update stop_camera (listener p) M_close p
      else exit p
  | M_close => update close_camera (listener p) M_destroy p
  | M_destroy =>
      mkProgram st (listener p) M_ser_close (picam2_bound p)
                (S (windows_destroyed p))
  | M_ser_close => update (fun st => end_main (close_serial st))
                          (listener p) M_exited p
  | M_exited => p
  end.

(** [input()] returns [line] to the listener, which decodes it and
    selects the branch. *)
Definition input_tick (line : string) (p : Program) : Program :=
  match listener p with
  | L_input =>
      let user_input := PyStr.lower (PyStr.strip line) in
      if user_input =? "q" then goto_listener L_quit_flag p
      else if PyStr.mem user_input drive_commands
           then goto_listener (L_drive_flag user_input) p
      else if user_input =? "p" then goto_listener L_toggle_paused p
      else p
  | _ => p
  end.

(** The listener executes its next statement. *)
Definition listener_tick (p : Program) : Program :=
  match listener p with
  | L_quit_flag => update (set_flag true) L_quit_command (main p) p
  | L_quit_command =>
      update (fun st => stop_listener (set_input (key_input_flag st) "q" st))
             L_returned (main p) p
  | L_drive_flag c => update (set_flag true) (L_drive_command c) (main p) p
  | L_drive_command c =>
      update (fun st => set_input (key_input_flag st) c st) L_input (main p) p
  | L_toggle_paused =>
      update (fun st => set_paused (negb (paused st)) st)
             L_toggle_flag (main p) p
  | L_toggle_flag => update (set_flag true) L_toggle_send (main p) p
  | L_toggle_send => update send_pause_resume_to_arduino L_input (main p) p
  | _ => p
  end.

(** A [KeyboardInterrupt], or any other exception, is raised in the main
    thread: inside the [try] it leads to the [finally] block, inside the
    [finally] block it ends the process with the remaining calls
    skipped. *)
Definition interrupt_tick (p : Program) : Program :=
  match main p with
  | M_exited => p
  | M_stop | M_close | M_destroy | M_ser_close => exit p
  | _ => goto_main M_stop p
  end.

Inductive Tick : Type :=
| T_main (lines : option (list Segment)) (key : Z)
| T_input (line : string)
| T_listener
| T_interrupt.

(** The listener is a daemon thread: it runs only while the main thread
    has not left the program. *)
Definition tick (libm_atan2 : float -> float -> float)
           (p : Program) (t : Tick) : Program :=
  match main p with
  | M_exited => p
  | _ =>
      match t with
      | T_main lines key => main_tick libm_atan2 lines key p
      | T_input line => input_tick line p
      | T_listener => listener_tick p
      | T_interrupt => interrupt_tick p
      end
  end.

Definition play (libm_atan2 : float -> float -> float)
           (p : Program) (ts : list Tick) : Program :=
  fold_left (tick libm_atan2) ts p.

(** The main thread runs on its own until it is back at the head of the
    loop or has left the program. *)
Fixpoint run_pass (libm_atan2 : float -> float -> float) (fuel : nat)
         (lines : option (list Segment)) (key : Z) (p : Program) : Program :=
  match fuel with
  | O => p
  | S fuel' =>
      let p' := main_tick libm_atan2 lines key p in
      match main p' with
      | M_flag | M_exited => p'
      | _ => run_pass libm_atan2 fuel' lines key p'
      end
  end.

End Threads.

(** ** Vocabulary of the properties *)

(** The command the listener decodes from a line. *)
Definition user_input_of (line : string) : string :=
  PyStr.lower (PyStr.strip line).

(** An angle frame on the wire: a write that starts with the letter A. *)
Definition is_angle_frame (w : string) : bool := prefix "A" w.

(** The values the listener ever stores in [command]. *)
Definition valid_command (c : string) : Prop :=
  c = "" \/ c = "q" \/ In c drive_commands.

(** Release bookkeeping of the [finally] block. *)
Definition released (n : nat) (st : State) : Prop :=
  ser_closed st = n /\ picam2_stopped st = n /\ picam2_closed st = n.

Record Inv (st : State) : Prop := mkInv {
  inv_command : valid_command (command st);
  inv_release : released (if main_running st then 0 else 1) st;
  inv_quit : listener_running st = false ->
             key_input_flag st = true /\ command st = "q"
}.

(** Both threads are still running. *)
Definition alive (st : State) : bool :=
  main_running st && listener_running st.

(** The event is a toggle line that a live listener reads. *)
Definition accepts_toggle (st : State) (ev : Event) : bool :=
  alive st &&
  match ev with
  | Line l => user_input_of l =? "p"
  | _ => false
  end.

(** Number of toggle commands the listener handles along a schedule. *)
Fixpoint toggles_applied (st : State) (evs : list Event) : nat :=
  match evs with
  | [] => 0
  | ev :: evs' =>
      (if accepts_toggle st ev then 1 else 0) + toggles_applied (step st ev) evs'
  end.

(** The mode is ManualPaused at the start of every event of a schedule. *)
Fixpoint stays_paused (st : State) (evs : list Event) : bool :=
  match evs with
  | [] => true
  | ev :: evs' => paused st && stays_paused (step st ev) evs'
  end.

(** Number of toggle lines in a schedule. *)
Definition toggle_lines (evs : list Event) : nat :=
  List.length
    (filter (fun ev => match ev with
                       | Line l => user_input_of l =? "p"
                       | _ => false
                       end) evs).

(** The four ways a pass of the listener loop can go. *)
Inductive listener_case (l : string) (st : State) : State -> Prop :=
| lc_quit :
    user_input_of l = "q" ->
    listener_case l st (stop_listener (set_input true "q" st))
| lc_drive :
    user_input_of l <> "q" -> In (user_input_of l) drive_commands ->
    listener_case l st (set_input true (user_input_of l) st)
| lc_toggle :
    user_input_of l = "p" ->
    listener_case l st
      (send_pause_resume_to_arduino
         (set_flag true (set_paused (negb (paused st)) st)))
| lc_other :
    user_input_of l <> "q" -> user_input_of l <> "p" ->
    ~ In (user_input_of l) drive_commands ->
    listener_case l st st.

(** The four ways the poll at the head of the main loop can go. *)
Inductive poll_case (st : State) : Flow * State -> Prop :=
| pc_idle : key_input_flag st = false -> poll_case st (Continue, st)
| pc_quit :
    key_input_flag st = true -> command st = "q" -> poll_case st (Break, st)
| pc_toggle :
    key_input_flag st = true -> command st = "p" ->
    poll_case st (Continue, set_flag false st)
| pc_send :
    key_input_flag st = true -> command st <> "q" -> command st <> "p" ->
    poll_case st (Continue, set_flag false (ser_write (command st) st)).

Local Open Scope R_scope.

(** The orientation of one segment, and the angle as the specification
    words it: the plain arithmetic mean of the orientations, in degrees. *)
Definition orientation (line : Segment) : R :=
  let '(x1, y1, x2, y2) := line in
  arctan2 (IZR (wrap32 (y2 - y1))) (IZR (wrap32 (x2 - x1))).

Definition Rsum (l : list R) : R := fold_right Rplus 0 l.

Definition mean_orientation_degrees (ls : list Segment) : R :=
  Rsum (map orientation ls) / INR (List.length ls) * 180 / PI.

Definition segment_count (lines : option (list Segment)) : nat :=
  match lines with
  | None => 0
  | Some ls => List.length ls
  end.

Local Close Scope R_scope.

(** ** Vocabulary of the further properties *)

(** Number of angle frames, and of toggle bytes, in a serial log. *)
Definition angle_frames (log : list string) : nat :=
  List.length (filter is_angle_frame log).

Definition toggle_bytes (log : list string) : nat :=
  List.length (filter (String.eqb "p") log).

(** A string of white space only. *)
Fixpoint all_space (s : string) : bool :=
  match s with
  | EmptyString => true
  | String c s' => PyStr.isspace c && all_space s'
  end.

(** A segment moved by [dx] along x and [dy] along y, and a segment
    with its two end points exchanged. *)
Definition shift_segment (dx dy : Z) (line : Segment) : Segment :=
  let '(x1, y1, x2, y2) := line in
  ((x1 + dx)%Z, (y1 + dy)%Z, (x2 + dx)%Z, (y2 + dy)%Z).


(** The frame sizes for which the vertex arithmetic is checked. *)
Definition max_frame_side : Z := 16384.

(** The five float products of [roi_vertices] agree with integer
    division for the side length [n]. *)
Definition roi_products_exact (n : Z) : bool :=
  ((PyFloat.trunc (PrimFloat.mul (PyFloat.of_int n) PyFloat.f0_1) =? n / 10)
   && (PyFloat.trunc (PrimFloat.mul (PyFloat.of_int n) PyFloat.f0_4)
       =? 4 * n / 10)
   && (PyFloat.trunc (PrimFloat.mul (PyFloat.of_int n) PyFloat.f0_6)
       =? 6 * n / 10)
   && (PyFloat.trunc (PrimFloat.mul (PyFloat.of_int n) PyFloat.f0_9)
       =? 9 * n / 10)
   && (PyFloat.trunc (PrimFloat.mul (PyFloat.of_int n) PyFloat.f0_5)
       =? n / 2))%Z.

(** [f] holds of 0, 1, ..., [n] - 1. *)
Fixpoint holds_below (n : nat) (f : Z -> bool) : bool :=
  match n with
  | O => true
  | S k => f (Z.of_nat k) && holds_below k f
  end.

(** The test [filter_colors] applies to a pixel after conversion, and what
    it does to the pixel. *)
Definition is_yellow (hsv : Pixel) : bool :=
  negb (inRange hsv yellow_min yellow_max =? 0)%Z.

Definition keep_or_black (cvtColor_BGR2HSV : Pixel -> Pixel) (p : Pixel)
  : Pixel :=
  if is_yellow (cvtColor_BGR2HSV p) then p else (0, 0, 0)%Z.

(** ** Vocabulary of the statement-level properties *)

(** A C library whose [atan2] is not consulted: the schedules and frames
    it is used with reach only the cases that the C standard fixes. *)
Definition no_libm : float -> float -> float := fun _ _ => PrimFloat.nan.

(** A tick that cannot end the loop by itself: no interrupt, no [q] key
    in the window, no frame whose angle [int] rejects. *)
Definition quiet (libm_atan2 : float -> float -> float) (t : Threads.Tick)
  : bool :=
  match t with
  | Threads.T_main lines key =>
      negb (Z.land key 255 =? 113)%Z
      && match F64.angle_frame (F64.calculate_angle libm_atan2 lines) with
         | Some _ => true
         | None => false
         end
  | Threads.T_interrupt => false
  | _ => true
  end.

(** The orientation of one segment on float64, and a float sum taken
    from left to right starting at 0, as the loop of [calculate_angle]
    takes it. *)
Definition orientation_f64 (libm_atan2 : float -> float -> float)
           (line : Segment) : float :=
  let '(x1, y1, x2, y2) := line in
  F64.arctan2 libm_atan2 (wrap32 (y2 - y1)) (wrap32 (x2 - x1)).

Definition fsum (l : list float) : float :=
  fold_left PrimFloat.add l 0%float.


(** A payload of the form A, decimal integer, line feed. *)
Definition is_frame (w : string) : Prop :=
  exists n : Z, w = "A" ++ PyStr.str_of_int n ++ PyStr.LF.

(** What the two threads ever write: the toggle byte, the content of
    [command] (empty, [q] or a drive character), or an angle frame. *)
Definition on_the_wire (w : string) : Prop :=
  w = "p" \/ valid_command w \/ is_frame w.

(** The listener has flipped [paused] (line 171) and not yet written the
    toggle byte (line 173). *)
Definition mid_toggle (l : Threads.ListenerPc) : bool :=
  match l with
  | Threads.L_toggle_flag | Threads.L_toggle_send => true
  | _ => false
  end.

(** The main thread has captured a frame (line 212) and not yet sent its
    angle (line 234). *)
Definition in_flight (m : Threads.MainPc) : bool :=
  match m with
  | Threads.M_detect | Threads.M_send_angle _ => true
  | _ => false
  end.

(** The main thread alone from [boot] to the head of the loop: camera
    created and started, listener started. *)
Definition startup : list Threads.Tick :=
  [Threads.T_main None 0%Z; Threads.T_main None 0%Z; Threads.T_main None 0%Z].

(** Frames captured and angle frames sent, by where the main thread
    stands. *)
Definition frames_account (p : Threads.Program) : Prop :=
  let sent := angle_frames (ser (Threads.shared p)) in
  let got := picam2_captured (Threads.shared p) in
  match Threads.main p with
  | Threads.M_detect | Threads.M_send_angle _ => got = S sent
  | Threads.M_stop | Threads.M_close | Threads.M_destroy
  | Threads.M_ser_close | Threads.M_exited => sent <= got <= S sent
  | _ => got = sent
  end.

(** The main thread has not started the listener yet. *)
Definition starting (m : Threads.MainPc) : bool :=
  match m with
  | Threads.M_camera | Threads.M_camera_start | Threads.M_thread_start => true
  | _ => false
  end.

(** The drive character the listener is about to deposit, if any. *)
Definition depositing (l : Threads.ListenerPc) : option string :=
  match l with
  | Threads.L_drive_flag c | Threads.L_drive_command c => Some c
  | _ => None
  end.

Record Sound (p : Threads.Program) : Prop := mkSound {
  snd_start : starting (Threads.main p) = true ->
              Threads.listener p = Threads.L_unstarted;
  snd_command : valid_command (command (Threads.shared p));
  snd_drive : forall c, depositing (Threads.listener p) = Some c ->
                        In c drive_commands;
  snd_wire : Forall on_the_wire (ser (Threads.shared p));
  snd_paused :
    paused (Threads.shared p)
    = xorb (Nat.odd (toggle_bytes (ser (Threads.shared p))))
           (mid_toggle (Threads.listener p));
  snd_frames : frames_account p
}.

(** The operator enters the toggle after the main thread has tested
    [paused] at line 206 and captured a frame, and before it sends the
    angle at line 234. *)
Definition toggle_after_test : list Threads.Tick :=
  (startup
   ++ [Threads.T_main None 0%Z; Threads.T_main None 0%Z;
       Threads.T_main None 0%Z;
       Threads.T_input "p"; Threads.T_listener; Threads.T_listener;
       Threads.T_listener;
       Threads.T_main None 0%Z])%list.

(** The operator enters the quit command; the main thread runs lines
    193-203 after the listener has raised the flag (line 164) and before
    it stores the command (line 165). *)
Definition quit_overtaken : list Threads.Tick :=
  (startup
   ++ [Threads.T_input "q"; Threads.T_listener;
       Threads.T_main None 0%Z; Threads.T_main None 0%Z;
       Threads.T_main None 0%Z; Threads.T_main None 0%Z;
       Threads.T_main None 0%Z;
       Threads.T_listener])%list.

(** As [quit_overtaken], with the command stored between the test of
    line 196 and the write of line 201. *)
Definition quit_written : list Threads.Tick :=
  (startup
   ++ [Threads.T_input "q"; Threads.T_listener;
       Threads.T_main None 0%Z; Threads.T_main None 0%Z;
       Threads.T_main None 0%Z;
       Threads.T_listener;
       Threads.T_main None 0%Z])%list.

(** An interrupt before [Picamera2()] has returned, and the [finally]
    block after it. *)
Definition interrupted_startup : list Threads.Tick :=
  [Threads.T_interrupt; Threads.T_main None 0%Z].

(** An interrupt in the loop and a second one after [picam2.stop()]. *)
Definition interrupted_cleanup : list Threads.Tick :=
  (startup
   ++ [Threads.T_interrupt; Threads.T_main None 0%Z;
       Threads.T_interrupt])%list.

(** An interrupt between the capture of line 212 and the write of
    line 234, and the [finally] block after it. *)
Definition interrupted_frame : list Threads.Tick :=
  (startup
   ++ [Threads.T_main None 0%Z; Threads.T_main None 0%Z;
       Threads.T_main None 0%Z;
       Threads.T_interrupt;
       Threads.T_main None 0%Z; Threads.T_main None 0%Z;
       Threads.T_main None 0%Z; Threads.T_main None 0%Z])%list.

(** The main thread is inside the loop, and a frame it is about to send
    is one that [int] accepts. *)
Definition looping (libm_atan2 : float -> float -> float)
           (m : Threads.MainPc) : bool :=
  match m with
  | Threads.M_flag | Threads.M_paused_test | Threads.M_capture
  | Threads.M_detect | Threads.M_wait_key => true
  | Threads.M_send_angle ls =>
      match F64.angle_frame (F64.calculate_angle libm_atan2 ls) with
      | Some _ => true
      | None => false
      end
  | _ => false
  end.

(** The listener has returned with the flag down: no command will be
    seen any more, and the main thread is still in its loop with nothing
    released. *)
Record Deaf (libm_atan2 : float -> float -> float) (p : Threads.Program)
  : Prop := mkDeaf {
  deaf_listener : Threads.listener p = Threads.L_returned;
  deaf_flag : key_input_flag (Threads.shared p) = false;
  deaf_camera : Threads.picam2_bound p = true;
  deaf_released : released 0 (Threads.shared p);
  deaf_running : main_running (Threads.shared p) = true;
  deaf_looping : looping libm_atan2 (Threads.main p) = true
}.



(** A C library that returns the doubles nearest to pi/4 and -pi/4 on
    the two diagonals of the first and fourth quadrant. *)
Definition diagonal_libm (y x : float) : float :=
  if PrimFloat.ltb y 0%float then PrimFloat.opp PyFloat.quarter_pi
  else PyFloat.quarter_pi.

(** ** Case analysis of the two loop bodies *)

Lemma mem_In (x : string) (l : list string) :
  PyStr.mem x l = true <-> In x l.
Proof.
  unfold PyStr.mem. rewrite existsb_exists. split.
  - intros [y [Hy He]]. apply String.eqb_eq in He. now subst.
  - intros H. exists x. split; [assumption | apply String.eqb_refl].
Qed.

(** [H] puts a string that is not a drive character among them. *)
Ltac not_drive H :=
  unfold drive_commands in H; simpl in H; intuition discriminate.

(** The serial log did not grow. *)
Ltac no_output := exists []; now rewrite app_nil_r.

Lemma handle_key_input_case (l : string) (st : State) :
  listener_case l st (handle_key_input l st).
Proof.
  unfold handle_key_input. fold (user_input_of l).
  destruct (user_input_of l =? "q") eqn:Hq.
  - apply String.eqb_eq in Hq. now apply lc_quit.
  - apply String.eqb_neq in Hq.
    destruct (PyStr.mem (user_input_of l) drive_commands) eqn:Hd.
    + apply mem_In in Hd. now apply lc_drive.
    + assert (Hn : ~ In (user_input_of l) drive_commands).
      { intro H. apply mem_In in H. congruence. }
      destruct (user_input_of l =? "p") eqn:Hp.
      * apply String.eqb_eq in Hp. now apply lc_toggle.
      * apply String.eqb_neq in Hp. now apply lc_other.
Qed.

Lemma handle_toggle (l : string) (st : State) :
  user_input_of l = "p" ->
  handle_key_input l st =
  send_pause_resume_to_arduino
    (set_flag true (set_paused (negb (paused st)) st)).
Proof.
  intros H. unfold handle_key_input. fold (user_input_of l). now rewrite H.
Qed.

Lemma handle_quit (l : string) (st : State) :
  user_input_of l = "q" ->
  handle_key_input l st = stop_listener (set_input true "q" st).
Proof.
  intros H. unfold handle_key_input. fold (user_input_of l). now rewrite H.
Qed.

Lemma poll_cases (st : State) : poll_case st (poll st).
Proof.
  unfold poll. destruct (key_input_flag st) eqn:Hf; [| now apply pc_idle].
  destruct (command st =? "q") eqn:Hq.
  - apply String.eqb_eq in Hq. now apply pc_quit.
  - apply String.eqb_neq in Hq. destruct (command st =? "p") eqn:Hp.
    + apply String.eqb_eq in Hp. now apply pc_toggle.
    + apply String.eqb_neq in Hp. now apply pc_send.
Qed.

Lemma valid_command_not_toggle (c : string) : valid_command c -> c <> "p".
Proof.
  unfold valid_command, drive_commands. simpl.
  intros H E. subst c. intuition discriminate.
Qed.

Lemma valid_command_not_angle (c : string) :
  valid_command c -> is_angle_frame c = false.
Proof.
  unfold valid_command, drive_commands. simpl.
  intros H. repeat (destruct H as [H | H]; [subst c; reflexivity |]).
  contradiction.
Qed.

(** ** Reachable states *)

Lemma Inv_init : Inv init.
Proof.
  constructor; simpl.
  - now left.
  - repeat split.
  - discriminate.
Qed.

Lemma Inv_finally (st : State) :
  main_running st = true -> Inv st -> Inv (finally st).
Proof.
  intros Hr [Hc Hrel Hq]. rewrite Hr in Hrel. destruct Hrel as (H1 & H2 & H3).
  constructor; simpl; [assumption | | assumption].
  unfold released; simpl. now rewrite H1, H2, H3.
Qed.

Lemma Inv_handle_key_input (l : string) (st : State) :
  listener_running st = true -> Inv st -> Inv (handle_key_input l st).
Proof.
  intros Hl [Hc Hrel Hq]. unfold released in Hrel.
  destruct (handle_key_input_case l st) as [Hu | Hu Hd | Hu | Hu Hp Hd].
  - constructor; unfold released; simpl;
      [right; now left | assumption | now split].
  - constructor; unfold released; simpl;
      [right; now right | assumption | intros H; congruence].
  - constructor; unfold released; simpl;
      [assumption | assumption | intros H; congruence].
  - now constructor.
Qed.

Lemma Inv_loop_body (lines : option (list Segment)) (key : Z) (st : State) :
  Inv st -> Inv (snd (loop_body lines key st)).
Proof.
  intros [Hc Hrel Hq]. unfold loop_body. unfold released in Hrel.
  destruct (poll_cases st) as [Hf | Hf Hcq | Hf Hcp | Hf Hcq Hcp].
  - destruct (paused st).
    + now constructor.
    + unfold perceive. destruct (Z.land key 255 =? 113)%Z; simpl;
        (constructor; unfold released; simpl; assumption).
  - now constructor.
  - exfalso. now apply (valid_command_not_toggle _ Hc).
  - assert (Hl : listener_running st = false -> False).
    { intros H. destruct (Hq H) as [_ E]. contradiction. }
    simpl. destruct (paused st).
    + constructor; unfold released; simpl;
        [assumption | assumption | intros H; now apply Hl in H].
    + unfold perceive. destruct (Z.land key 255 =? 113)%Z; simpl;
        (constructor; unfold released; simpl;
         [assumption | assumption | intros H; now apply Hl in H]).
Qed.

Lemma Inv_step (st : State) (ev : Event) : Inv st -> Inv (step st ev).
Proof.
  intros HI. unfold step. destruct (main_running st) eqn:Hr; [| assumption].
  destruct ev as [l | lines key |].
  - destruct (listener_running st) eqn:Hl; [| assumption].
    now apply Inv_handle_key_input.
  - pose proof (Inv_loop_body lines key st HI) as HI'.
    assert (Hr' : main_running (snd (loop_body lines key st)) = true).
    { unfold loop_body, poll, perceive.
      repeat match goal with
             | |- context [if ?b then _ else _] => destruct b
             end; simpl; assumption. }
    destruct (loop_body lines key st) as [[|] st']; simpl in *.
    + assumption.
    + now apply Inv_finally.
  - now apply Inv_finally.
Qed.

Lemma run_app (st : State) (evs1 evs2 : list Event) :
  run st (evs1 ++ evs2)%list = run (run st evs1) evs2.
Proof. unfold run. apply fold_left_app. Qed.

Lemma Inv_run (st : State) (evs : list Event) : Inv st -> Inv (run st evs).
Proof.
  revert st. induction evs as [| ev evs IH]; intros st HI; simpl.
  - assumption.
  - apply IH. now apply Inv_step.
Qed.

Lemma reachable_Inv (st : State) : reachable st -> Inv st.
Proof. intros [evs ->]. apply Inv_run, Inv_init. Qed.

Lemma reachable_step (st : State) (ev : Event) :
  reachable st -> reachable (step st ev).
Proof.
  intros [evs ->]. exists (evs ++ [ev])%list. now rewrite run_app.
Qed.

(** ** What one event does to the shared state *)

Lemma loop_body_paused (lines : option (list Segment)) (key : Z) (st : State) :
  paused (snd (loop_body lines key st)) = paused st.
Proof.
  unfold loop_body, poll, perceive.
  repeat match goal with
         | |- context [if ?b then _ else _] => destruct b eqn:?
         end; simpl in *; congruence.
Qed.

Lemma loop_body_running (lines : option (list Segment)) (key : Z) (st : State) :
  main_running (snd (loop_body lines key st)) = main_running st
  /\ listener_running (snd (loop_body lines key st)) = listener_running st.
Proof.
  unfold loop_body, poll, perceive.
  repeat match goal with
         | |- context [if ?b then _ else _] => destruct b eqn:?
         end; simpl in *; split; congruence.
Qed.

Lemma paused_step (st : State) (ev : Event) :
  paused (step st ev) = xorb (paused st) (accepts_toggle st ev).
Proof.
  unfold step, accepts_toggle, alive.
  destruct (main_running st); simpl; [| now rewrite xorb_false_r].
  destruct ev as [l | lines key |]; simpl.
  - destruct (listener_running st); simpl; [| now rewrite xorb_false_r].
    destruct (handle_key_input_case l st) as [Hu | Hu Hd | Hu | Hu Hp Hd].
    + rewrite Hu. simpl. now rewrite xorb_false_r.
    + assert (E : (user_input_of l =? "p") = false).
      { apply String.eqb_neq. intro E. rewrite E in Hd. not_drive Hd. }
      rewrite E. simpl. now rewrite xorb_false_r.
    + rewrite Hu. simpl. now destruct (paused st).
    + apply String.eqb_neq in Hp. rewrite Hp. now rewrite xorb_false_r.
  - rewrite andb_false_r, xorb_false_r.
    pose proof (loop_body_paused lines key st) as H.
    now destruct (loop_body lines key st) as [[|] st'].
  - now rewrite andb_false_r, xorb_false_r.
Qed.

Lemma run_exited (st : State) (evs : list Event) :
  main_running st = false -> run st evs = st.
Proof.
  intros H. unfold run. induction evs as [| ev evs IH]; simpl; [reflexivity |].
  assert (E : step st ev = st) by (unfold step; now rewrite H).
  now rewrite E.
Qed.

Lemma alive_step_back (st : State) (ev : Event) :
  alive (step st ev) = true -> alive st = true.
Proof.
  unfold alive, step. destruct (main_running st) eqn:Hr; [| now rewrite Hr].
  destruct ev as [l | lines key |]; simpl.
  - destruct (listener_running st) eqn:Hl; [reflexivity |].
    now rewrite Hr, Hl.
  - destruct (loop_body_running lines key st) as [_ H2].
    destruct (loop_body lines key st) as [[|] st']; simpl in *.
    + rewrite H2. now rewrite andb_true_iff.
    + discriminate.
  - discriminate.
Qed.

Lemma toggles_applied_alive (st : State) (evs : list Event) :
  alive (run st evs) = true -> toggles_applied st evs = toggle_lines evs.
Proof.
  revert st. induction evs as [| ev evs IH]; intros st H; [reflexivity |].
  simpl in H. pose proof (IH _ H) as E.
  assert (Ha : alive st = true).
  { apply (alive_step_back st ev). clear E IH. revert H.
    generalize (step st ev) as s. induction evs as [| e es IHes]; intros s H.
    - exact H.
    - simpl in H. apply IHes in H. now apply alive_step_back in H. }
  simpl. rewrite E. unfold accepts_toggle. rewrite Ha.
  unfold toggle_lines. simpl. destruct ev as [l | |]; simpl; try reflexivity.
  now destruct (user_input_of l =? "p").
Qed.

Lemma paused_run (st : State) (evs : list Event) :
  paused (run st evs) = xorb (paused st) (Nat.odd (toggles_applied st evs)).
Proof.
  revert st. induction evs as [| ev evs IH]; intros st; simpl.
  - now rewrite xorb_false_r.
  - rewrite IH, paused_step. destruct (accepts_toggle st ev).
    + change (1 + toggles_applied (step st ev) evs)
        with (S (toggles_applied (step st ev) evs)).
      rewrite Nat.odd_succ, <- Nat.negb_odd.
      now destruct (paused st), (Nat.odd (toggles_applied (step st ev) evs)).
    + now rewrite xorb_false_r.
Qed.

Lemma poll_writes (st : State) :
  ser (snd (poll st)) = ser st
  \/ (key_input_flag st = true /\ command st <> "q" /\ command st <> "p"
      /\ ser (snd (poll st)) = (ser st ++ [command st])%list).
Proof.
  destruct (poll_cases st) as [Hf | Hf Hcq | Hf Hcp | Hf Hcq Hcp]; simpl;
    auto.
Qed.

Lemma poll_keeps (st : State) :
  paused (snd (poll st)) = paused st
  /\ picam2_captured (snd (poll st)) = picam2_captured st
  /\ command (snd (poll st)) = command st.
Proof.
  destruct (poll_cases st); simpl; auto.
Qed.

Lemma loop_body_skips (lines : option (list Segment)) (key : Z) (st : State) :
  paused st = true -> loop_body lines key st = poll st.
Proof.
  intros Hp. unfold loop_body.
  destruct (poll_keeps st) as [H _]. rewrite Hp in H.
  destruct (poll st) as [[|] st']; simpl in H; [| reflexivity].
  now rewrite H.
Qed.

Lemma listener_writes (l : string) (st : State) :
  exists out, ser (handle_key_input l st) = (ser st ++ out)%list
              /\ (out = [] \/ out = ["p"]).
Proof.
  destruct (handle_key_input_case l st); simpl.
  - exists []. rewrite app_nil_r; auto.
  - exists []. rewrite app_nil_r; auto.
  - exists ["p"]. auto.
  - exists []. rewrite app_nil_r; auto.
Qed.

Lemma paused_step_writes (st : State) (ev : Event) :
  Inv st -> paused st = true ->
  picam2_captured (step st ev) = picam2_captured st
  /\ exists out, ser (step st ev) = (ser st ++ out)%list
                 /\ Forall (fun w => is_angle_frame w = false) out.
Proof.
  intros HI Hp. unfold step.
  assert (Hnil : exists out : list string,
             ser st = (ser st ++ out)%list
             /\ Forall (fun w => is_angle_frame w = false) out).
  { no_output. }
  destruct (main_running st); [| now split].
  destruct ev as [l | lines key |].
  - destruct (listener_running st); [| now split]. split.
    + now destruct (handle_key_input_case l st).
    + destruct (listener_writes l st) as [out [E [-> | ->]]];
        eexists; (split; [exact E |]); repeat constructor.
  - rewrite (loop_body_skips lines key st Hp).
    destruct (poll_keeps st) as (_ & Hcap & _).
    assert (Hw : exists out, ser (snd (poll st)) = (ser st ++ out)%list
                 /\ Forall (fun w => is_angle_frame w = false) out).
    { destruct (poll_writes st) as [E | (_ & _ & _ & E)].
      - rewrite E. exact Hnil.
      - exists [command st]. split; [exact E |].
        constructor; [| constructor].
        apply valid_command_not_angle, (inv_command st HI). }
    destruct (poll st) as [[|] st']; simpl in *; now split.
  - now split.
Qed.

Lemma paused_interval_writes (st : State) (evs : list Event) :
  Inv st -> stays_paused st evs = true ->
  picam2_captured (run st evs) = picam2_captured st
  /\ exists out, ser (run st evs) = (ser st ++ out)%list
                 /\ Forall (fun w => is_angle_frame w = false) out.
Proof.
  revert st. unfold run.
  induction evs as [| ev evs IH]; intros st HI Hs; simpl.
  - split; [reflexivity |]. no_output.
  - simpl in Hs. apply andb_true_iff in Hs. destruct Hs as [Hp Hs].
    destruct (paused_step_writes st ev HI Hp) as [Hc1 [out1 [E1 F1]]].
    destruct (IH (step st ev) (Inv_step st ev HI) Hs) as [Hc2 [out2 [E2 F2]]].
    split; [congruence |].
    exists (out1 ++ out2)%list. split.
    + rewrite E2, E1. now rewrite app_assoc.
    + apply Forall_app. now split.
Qed.

Lemma both_modes_reachable :
  (exists st, reachable st /\ alive st = true /\ mode st = Autonomous)
  /\ (exists st, reachable st /\ alive st = true /\ mode st = ManualPaused).
Proof.
  split.
  - exists init. repeat split. now exists [].
  - exists (run init [Line "p"]). repeat split. now exists [Line "p"].
Qed.

Lemma exit_releases_once (evs : list Event) :
  released (if main_running (run init evs) then 0 else 1) (run init evs).
Proof. apply inv_release, Inv_run, Inv_init. Qed.

(** ** Control-mode properties *)

(** A pass of the main loop that no line of the listener overlaps, from
    a reachable state whose mode is ManualPaused, is the pending-command
    poll and nothing else, whatever the frame holds; no event reads a
    frame from the camera, and whatever an event writes to the serial
    port is not an angle frame. *)
Lemma paused_pass_sends_no_angle (st : State) :
  reachable st -> paused st = true ->
  (forall lines key, loop_body lines key st = poll st)
  /\ forall ev,
       picam2_captured (step st ev) = picam2_captured st
       /\ exists out, ser (step st ev) = (ser st ++ out)%list
                      /\ Forall (fun w => is_angle_frame w = false) out.
Proof.
  intros Hr Hp. split.
  - intros lines key. now apply loop_body_skips.
  - intros ev. apply paused_step_writes; [now apply reachable_Inv | exact Hp].
Qed.

(** C2. Along any schedule that leaves both threads running, the mode
    reached from the initial Autonomous mode is Autonomous when the
    number of toggle lines is even and ManualPaused when it is odd;
    entering the toggle twice restores the mode, and an event changes
    [paused] exactly when it is a toggle line read by the listener. *)
Theorem toggle_parity (evs : list Event) :
  alive (run init evs) = true ->
  mode (run init evs) =
    (if Nat.even (toggle_lines evs) then Autonomous else ManualPaused)
  /\ (forall st, paused (handle_key_input "p" (handle_key_input "p" st))
                 = paused st)
  /\ (forall st ev,
        paused (step st ev) = xorb (paused st) (accepts_toggle st ev)).
Proof.
  intros Ha. split; [| split].
  - unfold mode. rewrite paused_run, (toggles_applied_alive _ _ Ha).
    simpl. rewrite <- Nat.negb_odd.
    now destruct (Nat.odd (toggle_lines evs)).
  - intros st. simpl. now destruct (paused st).
  - exact paused_step.
Qed.

Lemma toggle_parity_witness :
  let evs := [Line "p"; Iteration None 0%Z; Line " P "; Line "w"; Line "p"] in
  mode (run init evs) =
    (if Nat.even (toggle_lines evs) then Autonomous else ManualPaused)
  /\ (forall st, paused (handle_key_input "p" (handle_key_input "p" st))
                 = paused st)
  /\ (forall st ev,
        paused (step st ev) = xorb (paused st) (accepts_toggle st ev)).
Proof.
  apply (toggle_parity
           [Line "p"; Iteration None 0%Z; Line " P "; Line "w"; Line "p"]).
  reflexivity.
Defined.

(** ** The pending-command slot *)

(** A drive or quit deposit replaces an undelivered drive deposit: the
    state is the one the second line alone would have produced. *)
Lemma deposit_overwrites (l1 l2 : string) (st : State) :
  In (user_input_of l1) drive_commands ->
  user_input_of l2 = "q" \/ In (user_input_of l2) drive_commands ->
  handle_key_input l2 (handle_key_input l1 st) = handle_key_input l2 st.
Proof.
  intros H1 H2.
  assert (E1 : handle_key_input l1 st = set_input true (user_input_of l1) st).
  { destruct (handle_key_input_case l1 st) as [Hu | Hu Hd | Hu | Hu Hp Hd].
    - rewrite Hu in H1. not_drive H1.
    - reflexivity.
    - rewrite Hu in H1. not_drive H1.
    - contradiction. }
  rewrite E1. destruct H2 as [Hq | Hd].
  - now rewrite !handle_quit.
  - destruct (handle_key_input_case l2 st) as [Hu | Hu _ | Hu | _ _ Hn].
    + now rewrite handle_quit.
    + unfold handle_key_input. fold (user_input_of l2).
      apply String.eqb_neq in Hu. rewrite Hu.
      apply mem_In in Hd. now rewrite Hd.
    + rewrite Hu in Hd. not_drive Hd.
    + contradiction.
Qed.

(** C3 on the code.  The operator enters [w] and then [p]
    before the main loop polls: the slot still holds [w], the flag is
    raised, and the next pass of the loop delivers [w], the first of the
    two deposits. *)
Theorem toggle_deposit_keeps_first :
  let st := run init [Line "w"; Line "p"] in
  command st = "w" /\ key_input_flag st = true
  /\ ser st = ["p"]
  /\ ser (step st (Iteration None 0%Z)) = ["p"; "w"].
Proof. repeat split. Qed.



(** ** Who writes the toggle byte *)

Lemma loop_body_writes_no_toggle
      (lines : option (list Segment)) (key : Z) (st : State) :
  Inv st ->
  exists out, ser (snd (loop_body lines key st)) = (ser st ++ out)%list
              /\ ~ In "p" out.
Proof.
  intros HI. pose proof (inv_command st HI) as Hv.
  assert (Hc : ~ In "p" [command st]).
  { intros [E | []]. now apply (valid_command_not_toggle _ Hv). }
  assert (Ha : forall a, ~ In "p" [angle_frame a]).
  { intros a [E | []]. discriminate E. }
  unfold loop_body.
  destruct (poll_cases st) as [Hf | Hf Hcq | Hf Hcp | Hf Hcq Hcp]; simpl.
  - destruct (paused st); simpl.
    + no_output.
    + exists [angle_frame (calculate_angle lines)]. unfold perceive.
      split; [now destruct (Z.land key 255 =? 113)%Z | apply Ha].
  - no_output.
  - destruct (paused st); simpl.
    + no_output.
    + exists [angle_frame (calculate_angle lines)]. unfold perceive.
      split; [now destruct (Z.land key 255 =? 113)%Z | apply Ha].
  - destruct (paused st); simpl.
    + exists [command st]. now split.
    + exists [command st; angle_frame (calculate_angle lines)].
      unfold perceive. split.
      * destruct (Z.land key 255 =? 113)%Z; simpl; now rewrite <- app_assoc.
      * intros [E | [E | []]]; [now apply Hc; left | discriminate E].
Qed.

Lemma iteration_writes_no_toggle
      (lines : option (list Segment)) (key : Z) (st : State) :
  Inv st ->
  paused (step st (Iteration lines key)) = paused st
  /\ exists out, ser (step st (Iteration lines key)) = (ser st ++ out)%list
                 /\ ~ In "p" out.
Proof.
  intros HI. split.
  - rewrite paused_step. unfold accepts_toggle.
    now rewrite andb_false_r, xorb_false_r.
  - unfold step. destruct (main_running st).
    + destruct (loop_body_writes_no_toggle lines key st HI) as [out [E Hn]].
      exists out. split; [| exact Hn].
      now destruct (loop_body lines key st) as [[|] st'].
    + no_output.
Qed.

(** C4, as the code has it.  The listener itself flips the mode, writes
    the single byte [p] and raises the flag when it reads a toggle line;
    a pass of the main loop, before or after that, leaves the mode alone
    and writes no toggle byte. *)
Theorem toggle_is_sent_by_listener
        (st : State) (l : string) (lines : option (list Segment)) (key : Z) :
  reachable st -> alive st = true -> user_input_of l = "p" ->
  let st1 := step st (Line l) in
  (paused st1 = negb (paused st)
   /\ ser st1 = (ser st ++ ["p"])%list
   /\ key_input_flag st1 = true)
  /\ (paused (step st (Iteration lines key)) = paused st
      /\ exists out, ser (step st (Iteration lines key)) = (ser st ++ out)%list
                     /\ ~ In "p" out)
  /\ (paused (step st1 (Iteration lines key)) = paused st1
      /\ exists out, ser (step st1 (Iteration lines key)) = (ser st1 ++ out)%list
                     /\ ~ In "p" out).
Proof.
  intros Hr Ha Hl st1. pose proof (reachable_Inv _ Hr) as HI.
  assert (HI1 : Inv st1) by now apply Inv_step.
  split; [| split; now apply iteration_writes_no_toggle].
  unfold alive in Ha. apply andb_true_iff in Ha. destruct Ha as [Hm Hlr].
  unfold st1, step. rewrite Hm, Hlr, (handle_toggle l st Hl). now simpl.
Qed.

Lemma toggle_is_sent_by_listener_witness :
  let st := run init [Line "w"; Iteration None 0%Z] in
  let st1 := step st (Line "P") in
  (paused st1 = negb (paused st)
   /\ ser st1 = (ser st ++ ["p"])%list
   /\ key_input_flag st1 = true)
  /\ (paused (step st (Iteration None 0%Z)) = paused st
      /\ exists out, ser (step st (Iteration None 0%Z)) = (ser st ++ out)%list
                     /\ ~ In "p" out)
  /\ (paused (step st1 (Iteration None 0%Z)) = paused st1
      /\ exists out, ser (step st1 (Iteration None 0%Z)) = (ser st1 ++ out)%list
                     /\ ~ In "p" out).
Proof.
  apply (toggle_is_sent_by_listener
           (run init [Line "w"; Iteration None 0%Z]) "P" None 0%Z).
  - exists [Line "w"; Iteration None 0%Z]. reflexivity.
  - reflexivity.
  - reflexivity.
Defined.

(** C4 as specified fails: on the first toggle line the listener
    has already written [p] and flipped the mode before the main loop
    runs, and the pass that consumes the flag writes an empty payload,
    not the toggle byte, and does not flip the mode. *)
Lemma listener_writes_before_consumption :
  let st1 := step init (Line "p") in
  let st2 := step st1 (Iteration None 0%Z) in
  ser init = [] /\ mode init = Autonomous
  /\ ser st1 = ["p"] /\ mode st1 = ManualPaused
  /\ ser st2 = ["p"; ""] /\ mode st2 = ManualPaused.
Proof. repeat split. Qed.

(** ** Leaving the loop *)

Lemma finally_released (st : State) :
  released 0 st -> main_running (finally st) = false /\ released 1 (finally st).
Proof.
  intros (H1 & H2 & H3). unfold released, finally. simpl.
  now rewrite H1, H2, H3.
Qed.

Lemma run_lines_stopped (st : State) (ls : list string) :
  listener_running st = false -> run st (map Line ls) = st.
Proof.
  intros H. unfold run. induction ls as [| l ls IH]; simpl; [reflexivity |].
  assert (E : step st (Line l) = st).
  { unfold step. rewrite H. now destruct (main_running st). }
  now rewrite E.
Qed.

Lemma quit_pending_breaks (lines : option (list Segment)) (key : Z) (st : State) :
  key_input_flag st = true -> command st = "q" ->
  loop_body lines key st = (Break, st).
Proof.
  intros Hf Hc. unfold loop_body, poll. now rewrite Hf, Hc.
Qed.

(** When no pass of the main loop overlaps a line of the listener and
    no call of the [finally] block fails: from every reachable state in
    which the main loop runs, in either mode, nothing has been released
    yet; after a quit line (followed by any further lines) the next pass
    of the main loop leaves the loop, and a keyboard interrupt leaves it
    at once; on both paths the camera is stopped and closed and the
    serial port closed once, and no later event changes that. *)
Lemma sequential_quit_releases_once
        (st : State) (l : string) (ls : list string)
        (lines : option (list Segment)) (key : Z) (evs : list Event) :
  reachable st -> main_running st = true -> user_input_of l = "q" ->
  let st2 := step (run (step st (Line l)) (map Line ls)) (Iteration lines key) in
  let st3 := step st KeyboardInterrupt in
  released 0 st
  /\ (main_running st2 = false /\ released 1 st2 /\ released 1 (run st2 evs))
  /\ (main_running st3 = false /\ released 1 st3 /\ released 1 (run st3 evs)).
Proof.
  intros Hr Hm Hl st2 st3. pose proof (reachable_Inv _ Hr) as HI.
  pose proof (inv_release st HI) as H0. rewrite Hm in H0.
  split; [exact H0 |]. split.
  - set (st1 := step st (Line l)).
    assert (HI1 : Inv st1) by now apply Inv_step.
    assert (Hm1 : main_running st1 = true).
    { unfold st1, step. rewrite Hm. destruct (listener_running st); [| exact Hm].
      now rewrite (handle_quit l st Hl). }
    assert (Hs1 : listener_running st1 = false).
    { unfold st1, step. rewrite Hm.
      destruct (listener_running st) eqn:E; [| exact E].
      now rewrite (handle_quit l st Hl). }
    destruct (inv_quit st1 HI1 Hs1) as [Hf Hc].
    pose proof (inv_release st1 HI1) as H1. rewrite Hm1 in H1.
    assert (E2 : st2 = finally st1).
    { unfold st2. fold st1. rewrite (run_lines_stopped st1 ls Hs1).
      unfold step. now rewrite Hm1, (quit_pending_breaks lines key st1 Hf Hc). }
    destruct (finally_released st1 H1) as [Hx Hrel].
    rewrite E2, (run_exited _ evs Hx). auto.
  - assert (E3 : st3 = finally st) by (unfold st3, step; now rewrite Hm).
    destruct (finally_released st H0) as [Hx Hrel].
    rewrite E3, (run_exited _ evs Hx). auto.
Qed.

(** ** The steering angle *)

Local Open Scope R_scope.

Lemma wrap32_small (z : Z) :
  (-2147483648 <= z < 2147483648)%Z -> wrap32 z = z.
Proof.
  intros H. unfold wrap32. rewrite Z.mod_small by lia. lia.
Qed.

Lemma add_angle_orientation (a : R) (line : Segment) :
  add_angle a line = a + orientation line.
Proof. now destruct line as [[[x1 y1] x2] y2]. Qed.

Lemma angle_sum_Rsum (ls : list Segment) (a : R) :
  fold_left add_angle ls a = a + Rsum (map orientation ls).
Proof.
  revert a. induction ls as [| line ls IH]; intros a; simpl.
  - lra.
  - rewrite IH, add_angle_orientation. lra.
Qed.

Lemma calculate_angle_cons (line : Segment) (ls : list Segment) :
  calculate_angle (Some (line :: ls))
  = degrees (Rsum (map orientation (line :: ls))
             / INR (List.length (line :: ls))).
Proof.
  unfold calculate_angle.
  change (List.length (line :: ls) =? 0)%nat with false. cbv iota.
  rewrite angle_sum_Rsum. now rewrite Rplus_0_l.
Qed.

Lemma arctan2_pos_x (y x : R) : 0 < x -> arctan2 y x = atan (y / x).
Proof. intros H. unfold arctan2. now destruct (Rlt_dec 0 x). Qed.

Lemma arctan2_neg_x_up (y x : R) :
  x < 0 -> 0 <= y -> arctan2 y x = atan (y / x) + PI.
Proof.
  intros Hx Hy. unfold arctan2.
  destruct (Rlt_dec 0 x); [lra |].
  destruct (Rlt_dec x 0); [| lra].
  now destruct (Rle_dec 0 y).
Qed.

Lemma arctan2_neg_x_down (y x : R) :
  x < 0 -> y < 0 -> arctan2 y x = atan (y / x) - PI.
Proof.
  intros Hx Hy. unfold arctan2.
  destruct (Rlt_dec 0 x); [lra |].
  destruct (Rlt_dec x 0); [| lra].
  destruct (Rle_dec 0 y); [lra | reflexivity].
Qed.








Lemma int_of_float_IZR (z : Z) : int_of_float (IZR z) = z.
Proof.
  unfold int_of_float. destruct (Rle_dec 0 (IZR z)).
  - apply ZfloorZ.
  - unfold Zceil. rewrite ZfloorNZ. lia.
Qed.

Lemma int_of_float_trunc (x : R) :
  Rabs (IZR (int_of_float x)) <= Rabs x < Rabs (IZR (int_of_float x)) + 1
  /\ 0 <= IZR (int_of_float x) * x.
Proof.
  unfold int_of_float. destruct (Rle_dec 0 x) as [Hx | Hx].
  - pose proof (Zfloor_bound x) as [Hlo Hhi].
    assert (Hz : (0 <= Zfloor x)%Z) by now apply Zfloor_lub.
    apply IZR_le in Hz.
    rewrite !Rabs_pos_eq by assumption. split; [lra | nra].
  - assert (Hx' : x < 0) by lra.
    pose proof (Zceil_bound x) as [Hlo Hhi].
    assert (Hz : (Zceil x <= 0)%Z).
    { assert (H1 : (Zceil x < 1)%Z) by (apply lt_IZR; lra). lia. }
    apply IZR_le in Hz.
    rewrite (Rabs_left x) by exact Hx'.
    destruct Hz as [Hz | Hz].
    + rewrite Rabs_left by exact Hz. split; [lra | nra].
    + rewrite Hz, Rabs_R0. split; [lra | nra].
Qed.

(** Those two properties single the integer out. *)
Lemma int_of_float_unique (x : R) (m : Z) :
  Rabs (IZR m) <= Rabs x < Rabs (IZR m) + 1 -> 0 <= IZR m * x ->
  m = int_of_float x.
Proof.
  intros [Hlo Hhi] Hs. unfold int_of_float.
  destruct (Rle_dec 0 x) as [Hx | Hx].
  - rewrite (Rabs_pos_eq x) in Hlo, Hhi by exact Hx.
    destruct (Z_lt_le_dec m 0) as [Hm | Hm].
    + apply IZR_lt in Hm. rewrite Rabs_left in Hlo, Hhi by exact Hm.
      exfalso. nra.
    + apply IZR_le in Hm. rewrite Rabs_pos_eq in Hlo, Hhi by exact Hm.
      symmetry. apply Zfloor_eq. lra.
  - assert (Hx' : x < 0) by lra.
    rewrite (Rabs_left x) in Hlo, Hhi by exact Hx'.
    destruct (Z_lt_le_dec 0 m) as [Hm | Hm].
    + apply IZR_lt in Hm. exfalso. nra.
    + apply IZR_le in Hm.
      assert (Ha : Rabs (IZR m) = - IZR m).
      { destruct Hm as [Hm | Hm]; [now apply Rabs_left |].
        rewrite Hm, Rabs_R0. lra. }
      rewrite Ha in Hlo, Hhi. symmetry. apply Zceil_eq. lra.
Qed.

Lemma str_of_int_reads_back (z : Z) :
  option_map Z.of_int (NilZero.int_of_string (PyStr.str_of_int z)) = Some z.
Proof.
  unfold PyStr.str_of_int. rewrite NilZero.isi.
  - simpl. now rewrite DecimalZ.of_to.
  - destruct z as [| p | p]; simpl; try discriminate.
    intros [= E]. now apply DecimalPos.Unsigned.to_uint_nonnil in E.
  - destruct z as [| p | p]; simpl; try discriminate.
    intros [= E]. now apply DecimalPos.Unsigned.to_uint_nonnil in E.
Qed.

(** C5. When [HoughLinesP] reports no segment, as [None] or as an empty
    list, [calculate_angle] returns the number 0, and the frame the loop
    then sends is [A0] followed by a line feed. *)
Theorem no_segments_zero_angle (lines : option (list Segment)) :
  segment_count lines = 0%nat ->
  calculate_angle lines = 0
  /\ angle_frame (calculate_angle lines) = ("A0" ++ PyStr.LF)%string.
Proof.
  intros H.
  assert (E : calculate_angle lines = 0).
  { destruct lines as [[| line ls] |]; simpl in *;
      [reflexivity | discriminate | reflexivity]. }
  split; [exact E |].
  rewrite E. unfold angle_frame. now rewrite (int_of_float_IZR 0).
Qed.

Lemma no_segments_zero_angle_witness :
  calculate_angle (Some []) = 0
  /\ angle_frame (calculate_angle (Some [])) = ("A0" ++ PyStr.LF)%string.
Proof. apply (no_segments_zero_angle (Some [])). reflexivity. Defined.

(** In exact arithmetic the angle of a non-empty list of segments is
    the arithmetic mean of the segments' orientations converted to
    degrees; the segment from (0,0) to (10,10) alone gives 45 and the
    segment from (0,0) to (10,-10) alone gives -45. *)
Lemma exact_angle_is_mean_orientation (ls : list Segment) :
  ls <> [] ->
  calculate_angle (Some ls) = mean_orientation_degrees ls
  /\ calculate_angle (Some [(0, 0, 10, 10)%Z]) = 45
  /\ calculate_angle (Some [(0, 0, 10, -10)%Z]) = -45.
Proof.
  intros Hne. pose proof PI_neq0 as Hpi. split; [| split].
  - destruct ls as [| line ls]; [contradiction |].
    rewrite calculate_angle_cons. unfold mean_orientation_degrees, degrees.
    change (List.length (line :: ls)) with (S (List.length ls)).
    pose proof (pos_INR (List.length ls)). rewrite S_INR. field. lra.
  - rewrite calculate_angle_cons. unfold degrees, orientation.
    cbn [map]. rewrite !wrap32_small by lia. simpl.
    rewrite arctan2_pos_x by lra.
    replace (10 / 10) with 1 by lra. rewrite atan_1. field. exact Hpi.
  - rewrite calculate_angle_cons. unfold degrees, orientation.
    cbn [map]. rewrite !wrap32_small by lia. simpl.
    rewrite arctan2_pos_x by lra.
    replace (-10 / 10) with (Ropp 1) by lra. rewrite atan_opp, atan_1.
    field. exact Hpi.
Qed.


(** C8. [send_angle_to_arduino] makes one write, whose payload is the
    letter A, the decimal text of an integer [n] and a line feed; [n] is
    the angle cut toward zero (its magnitude is the whole part of the
    angle's magnitude and it never has the opposite sign), and the text
    reads back as [n].  For 37.9 the payload is A37 and a line feed. *)
Theorem send_angle_truncates (angle : R) (st : State) :
  let n := int_of_float angle in
  ser (send_angle_to_arduino angle st)
  = (ser st ++ [("A" ++ PyStr.str_of_int n ++ PyStr.LF)%string])%list
  /\ (Rabs (IZR n) <= Rabs angle < Rabs (IZR n) + 1 /\ 0 <= IZR n * angle)
  /\ option_map Z.of_int (NilZero.int_of_string (PyStr.str_of_int n)) = Some n
  /\ angle_frame 37.9 = ("A37" ++ PyStr.LF)%string.
Proof.
  intros n. split; [reflexivity |]. split; [apply int_of_float_trunc |].
  split; [apply str_of_int_reads_back |].
  unfold angle_frame.
  assert (E : int_of_float 37.9 = 37%Z).
  { unfold int_of_float. destruct (Rle_dec 0 37.9) as [_ | H]; [| lra].
    apply Zfloor_eq. lra. }
  now rewrite E.
Qed.

Local Close Scope R_scope.

(** ** Further properties of the control loop *)


(** X4. A line that decodes to none of the nine commands, the empty line
    included, changes nothing at all in the shared state. *)
Theorem unrecognised_input_ignored (st : State) (l : string) :
  ~ In (user_input_of l) ("q" :: "p" :: drive_commands) ->
  step st (Line l) = st /\ handle_key_input l st = st.
Proof.
  intros Hn.
  assert (E : handle_key_input l st = st).
  { destruct (handle_key_input_case l st) as [Hu | Hu Hd | Hu | Hu Hp Hd].
    - exfalso. apply Hn. rewrite Hu. now left.
    - exfalso. apply Hn. right. now right.
    - exfalso. apply Hn. rewrite Hu. right. now left.
    - reflexivity. }
  split; [| exact E]. unfold step.
  destruct (main_running st); [| reflexivity].
  now destruct (listener_running st).
Qed.

Lemma unrecognised_input_ignored_witness :
  let st := run init [Line "w"] in
  step st (Line "ww") = st /\ handle_key_input "ww" st = st.
Proof.
  apply (unrecognised_input_ignored (run init [Line "w"]) "ww").
  simpl. intuition discriminate.
Defined.



(** ** Decoding of the operator's line *)

Lemma isspace_lower_char (c : ascii) :
  PyStr.isspace (PyStr.lower_char c) = PyStr.isspace c.
Proof. destruct c as [[] [] [] [] [] [] [] []]; reflexivity. Qed.

Lemma lstrip_lower (s : string) :
  PyStr.lstrip (PyStr.lower s) = PyStr.lower (PyStr.lstrip s).
Proof.
  induction s as [| c s IH]; [reflexivity |].
  cbn [PyStr.lower PyStr.lstrip]. rewrite isspace_lower_char.
  now destruct (PyStr.isspace c).
Qed.

Lemma rstrip_lower (s : string) :
  PyStr.rstrip (PyStr.lower s) = PyStr.lower (PyStr.rstrip s).
Proof.
  induction s as [| c s IH]; [reflexivity |].
  cbn [PyStr.lower PyStr.rstrip]. rewrite IH, isspace_lower_char.
  destruct (PyStr.rstrip s); [| reflexivity].
  now destruct (PyStr.isspace c).
Qed.

Lemma strip_lower (s : string) :
  PyStr.strip (PyStr.lower s) = PyStr.lower (PyStr.strip s).
Proof. unfold PyStr.strip. now rewrite lstrip_lower, rstrip_lower. Qed.

Lemma lstrip_all_space (b : string) :
  all_space b = true -> PyStr.lstrip b = EmptyString.
Proof.
  induction b as [| c b IH]; [reflexivity |].
  simpl. intros H. apply andb_true_iff in H. destruct H as [Hc Hb].
  rewrite Hc. now apply IH.
Qed.

Lemma rstrip_all_space (b : string) :
  all_space b = true -> PyStr.rstrip b = EmptyString.
Proof.
  induction b as [| c b IH]; [reflexivity |].
  simpl. intros H. apply andb_true_iff in H. destruct H as [Hc Hb].
  now rewrite (IH Hb), Hc.
Qed.

Lemma lstrip_app_left (a s : string) :
  all_space a = true -> PyStr.lstrip (a ++ s) = PyStr.lstrip s.
Proof.
  induction a as [| c a IH]; [reflexivity |].
  simpl. intros H. apply andb_true_iff in H. destruct H as [Hc Ha].
  rewrite Hc. now apply IH.
Qed.

Lemma rstrip_app_right (s b : string) :
  all_space b = true -> PyStr.rstrip (s ++ b) = PyStr.rstrip s.
Proof.
  intros Hb. induction s as [| c s IH].
  - simpl. now apply rstrip_all_space.
  - simpl. now rewrite IH.
Qed.

Lemma strip_app_right (s b : string) :
  all_space b = true -> PyStr.strip (s ++ b) = PyStr.strip s.
Proof.
  intros Hb. unfold PyStr.strip. induction s as [| c s IH].
  - simpl. now rewrite (lstrip_all_space b Hb).
  - simpl. destruct (PyStr.isspace c); [exact IH |].
    change (String c (s ++ b)) with (String c s ++ b).
    now apply rstrip_app_right.
Qed.

Lemma handle_key_input_ext (l l' : string) (st : State) :
  user_input_of l = user_input_of l' ->
  handle_key_input l st = handle_key_input l' st.
Proof.
  intros E. unfold handle_key_input.
  fold (user_input_of l). fold (user_input_of l'). now rewrite E.
Qed.

(** X8. The listener reads a line up to letter case and surrounding
    white space: two lines that differ only in case, one of them padded
    with white space on either side, decode to the same command and are
    handled alike. *)
Theorem input_case_and_padding_ignored (a b l l' : string) (st : State) :
  all_space a = true -> all_space b = true ->
  PyStr.lower l = PyStr.lower l' ->
  user_input_of (a ++ l ++ b) = user_input_of l'
  /\ handle_key_input (a ++ l ++ b) st = handle_key_input l' st.
Proof.
  intros Ha Hb Hl.
  assert (E : user_input_of (a ++ l ++ b) = user_input_of l').
  { unfold user_input_of, PyStr.strip at 1.
    rewrite (lstrip_app_left a (l ++ b) Ha).
    fold (PyStr.strip (l ++ b)). rewrite (strip_app_right l b Hb).
    now rewrite <- !strip_lower, Hl. }
  split; [exact E | now apply handle_key_input_ext].
Qed.

Lemma input_case_and_padding_ignored_witness :
  let tab := String (ascii_of_nat 9) EmptyString in
  user_input_of ("  " ++ "P" ++ tab) = user_input_of "p"
  /\ handle_key_input ("  " ++ "P" ++ tab) init = handle_key_input "p" init.
Proof.
  apply (input_case_and_padding_ignored
           "  " (String (ascii_of_nat 9) EmptyString) "P" "p" init);
    reflexivity.
Defined.

(** ** Further properties of the steering angle *)

Local Open Scope R_scope.

Lemma single_segment_angle (line : Segment) :
  calculate_angle (Some [line]) = degrees (orientation line).
Proof.
  rewrite calculate_angle_cons. unfold degrees. simpl. field. exact PI_neq0.
Qed.





Lemma orientation_shift (dx dy : Z) (line : Segment) :
  orientation (shift_segment dx dy line) = orientation line.
Proof.
  destruct line as [[[x1 y1] x2] y2]. unfold orientation, shift_segment.
  replace (y2 + dy - (y1 + dy))%Z with (y2 - y1)%Z by lia.
  replace (x2 + dx - (x1 + dx))%Z with (x2 - x1)%Z by lia.
  reflexivity.
Qed.

(** X10. The angle does not depend on where the segments lie in the
    frame: moving every segment by the same offset leaves it unchanged. *)
Theorem angle_translation_invariant
        (dx dy : Z) (lines : option (list Segment)) :
  calculate_angle (option_map (map (shift_segment dx dy)) lines)
  = calculate_angle lines.
Proof.
  destruct lines as [[| s ls] |]; [reflexivity | | reflexivity].
  change (option_map (map (shift_segment dx dy)) (Some (s :: ls)))
    with (Some (shift_segment dx dy s :: map (shift_segment dx dy) ls)).
  rewrite !calculate_angle_cons.
  assert (E : forall l, map orientation (map (shift_segment dx dy) l)
                        = map orientation l).
  { intros l. rewrite map_map. apply map_ext. intros a.
    apply orientation_shift. }
  change (shift_segment dx dy s :: map (shift_segment dx dy) ls)
    with (map (shift_segment dx dy) (s :: ls)).
  now rewrite E, length_map.
Qed.




Lemma arctan2_zero_x (y : R) :
  arctan2 y 0 = (if Rlt_dec 0 y then PI / 2
                 else if Rlt_dec y 0 then - (PI / 2) else 0).
Proof.
  unfold arctan2.
  destruct (Rlt_dec 0 0) as [H | _]; [lra |].
  destruct (Rlt_dec 0 0) as [H | _]; [lra | reflexivity].
Qed.

Lemma atan_div_diag (d : R) : 0 < d -> atan (d / d) = PI / 4.
Proof. intros H. replace (d / d) with 1 by (field; lra). apply atan_1. Qed.

(** The orientation, in radians, of the eight compass directions. *)
Lemma compass_orientations (x y d : Z) :
  (0 < d < 2147483648)%Z ->
  orientation (x, y, (x + d)%Z, y) = 0
  /\ orientation (x, y, (x + d)%Z, (y + d)%Z) = PI / 4
  /\ orientation (x, y, x, (y + d)%Z) = PI / 2
  /\ orientation (x, y, (x - d)%Z, (y + d)%Z) = 3 * (PI / 4)
  /\ orientation (x, y, (x - d)%Z, y) = PI
  /\ orientation (x, y, (x - d)%Z, (y - d)%Z) = - (3 * (PI / 4))
  /\ orientation (x, y, x, (y - d)%Z) = - (PI / 2)
  /\ orientation (x, y, (x + d)%Z, (y - d)%Z) = - (PI / 4).
Proof.
  intros Hd. unfold orientation.
  replace (x + d - x)%Z with d by lia.
  replace (y + d - y)%Z with d by lia.
  replace (x - d - x)%Z with (- d)%Z by lia.
  replace (y - d - y)%Z with (- d)%Z by lia.
  replace (x - x)%Z with 0%Z by lia.
  replace (y - y)%Z with 0%Z by lia.
  rewrite (wrap32_small d), (wrap32_small (- d)), (wrap32_small 0) by lia.
  destruct Hd as [Hd _]. apply IZR_lt in Hd.
  rewrite !opp_IZR. set (r := IZR d) in *.
  repeat split.
  - rewrite arctan2_pos_x by lra. replace (0 / r) with 0 by (field; lra).
    apply atan_0.
  - rewrite arctan2_pos_x by lra. now apply atan_div_diag.
  - rewrite arctan2_zero_x. destruct (Rlt_dec 0 r); [reflexivity | lra].
  - rewrite arctan2_neg_x_up by lra.
    replace (r / - r) with (- (r / r)) by (field; lra).
    rewrite atan_opp, atan_div_diag by lra. lra.
  - rewrite arctan2_neg_x_up by lra.
    replace (0 / - r) with 0 by (field; lra). rewrite atan_0. lra.
  - rewrite arctan2_neg_x_down by lra.
    replace (- r / - r) with (r / r) by (field; lra).
    rewrite atan_div_diag by lra. lra.
  - rewrite arctan2_zero_x. destruct (Rlt_dec 0 (- r)); [lra |].
    destruct (Rlt_dec (- r) 0); [reflexivity | lra].
  - rewrite arctan2_pos_x by lra.
    replace (- r / r) with (- (r / r)) by (field; lra).
    rewrite atan_opp, atan_div_diag by lra. reflexivity.
Qed.

Lemma degrees_of_quarters (k : R) : degrees (k * (PI / 4)) = k * 45.
Proof. unfold degrees. field. exact PI_neq0. Qed.

(** X12. A single segment of any length below 2^31 pointing in one of
    the eight compass directions of the image (y grows downward) gives 0,
    45, 90, 135, 180, -135, -90 and -45 degrees, going from the positive
    x axis toward the positive y axis. *)
Theorem compass_angles (x y d : Z) :
  (0 < d < 2147483648)%Z ->
  calculate_angle (Some [(x, y, (x + d)%Z, y)]) = 0
  /\ calculate_angle (Some [(x, y, (x + d)%Z, (y + d)%Z)]) = 45
  /\ calculate_angle (Some [(x, y, x, (y + d)%Z)]) = 90
  /\ calculate_angle (Some [(x, y, (x - d)%Z, (y + d)%Z)]) = 135
  /\ calculate_angle (Some [(x, y, (x - d)%Z, y)]) = 180
  /\ calculate_angle (Some [(x, y, (x - d)%Z, (y - d)%Z)]) = -135
  /\ calculate_angle (Some [(x, y, x, (y - d)%Z)]) = -90
  /\ calculate_angle (Some [(x, y, (x + d)%Z, (y - d)%Z)]) = -45.
Proof.
  intros Hd.
  destruct (compass_orientations x y d Hd)
    as (H0 & H1 & H2 & H3 & H4 & H5 & H6 & H7).
  rewrite !single_segment_angle, H0, H1, H2, H3, H4, H5, H6, H7.
  pose proof PI_neq0 as Hpi.
  repeat split; unfold degrees; field; exact Hpi.
Qed.

Lemma compass_angles_witness :
  calculate_angle (Some [(3, 4, (3 + 7)%Z, 4)%Z]) = 0
  /\ calculate_angle (Some [(3, 4, (3 + 7)%Z, (4 + 7)%Z)%Z]) = 45
  /\ calculate_angle (Some [(3, 4, 3, (4 + 7)%Z)%Z]) = 90
  /\ calculate_angle (Some [(3, 4, (3 - 7)%Z, (4 + 7)%Z)%Z]) = 135
  /\ calculate_angle (Some [(3, 4, (3 - 7)%Z, 4)%Z]) = 180
  /\ calculate_angle (Some [(3, 4, (3 - 7)%Z, (4 - 7)%Z)%Z]) = -135
  /\ calculate_angle (Some [(3, 4, 3, (4 - 7)%Z)%Z]) = -90
  /\ calculate_angle (Some [(3, 4, (3 + 7)%Z, (4 - 7)%Z)%Z]) = -45.
Proof. apply (compass_angles 3 4 7). lia. Defined.

(** X13. Two horizontal segments reported in opposite directions do not
    cancel to "straight": wherever they lie and whatever their lengths
    below 2^31, their angle is 90 degrees. *)
Theorem opposite_horizontal_segments_give_quarter_turn
        (x y d x' y' d' : Z) :
  (0 < d < 2147483648)%Z -> (0 < d' < 2147483648)%Z ->
  calculate_angle (Some [(x, y, (x + d)%Z, y); (x', y', (x' - d')%Z, y')])
  = 90.
Proof.
  intros Hd Hd'.
  destruct (compass_orientations x y d Hd) as (H0 & _).
  destruct (compass_orientations x' y' d' Hd') as (_ & _ & _ & _ & H4 & _).
  rewrite calculate_angle_cons. unfold Rsum. cbn [map fold_right].
  rewrite H0, H4. unfold degrees. simpl. field. exact PI_neq0.
Qed.

Lemma opposite_horizontal_segments_give_quarter_turn_witness :
  calculate_angle
    (Some [(0, 5, (0 + 10)%Z, 5)%Z; (40, 9, (40 - 25)%Z, 9)%Z])
  = 90.
Proof.
  apply (opposite_horizontal_segments_give_quarter_turn 0 5 10 40 9 25);
    lia.
Defined.

Local Close Scope R_scope.

(** ** Shape of the angle frame *)

Lemma append_inv_tail (a b s : string) : a ++ s = b ++ s -> a = b.
Proof.
  intros H.
  assert (E : forall x y, list_ascii_of_string (x ++ y)
                          = (list_ascii_of_string x ++ list_ascii_of_string y)%list).
  { induction x as [| c x IH]; intros y; simpl; [reflexivity | now rewrite IH]. }
  apply (f_equal list_ascii_of_string) in H. rewrite !E in H.
  apply app_inv_tail in H.
  apply (f_equal string_of_list_ascii) in H.
  now rewrite !string_of_list_ascii_of_string in H.
Qed.

Lemma str_of_int_injective (n m : Z) :
  PyStr.str_of_int n = PyStr.str_of_int m -> n = m.
Proof.
  intros H.
  pose proof (str_of_int_reads_back n) as Hn.
  pose proof (str_of_int_reads_back m) as Hm.
  rewrite H in Hn. congruence.
Qed.

(** X17. The angle frame tells the integers apart: two angles give the
    same bytes on the wire exactly when they are cut to the same
    integer. *)
Theorem angle_frame_injective (a b : R) :
  angle_frame a = angle_frame b <-> int_of_float a = int_of_float b.
Proof.
  unfold angle_frame. split.
  - intros H. cbn [append] in H. injection H as H.
    apply append_inv_tail in H. now apply str_of_int_injective.
  - intros H. now rewrite H.
Qed.

(** ** The region of interest *)

Lemma holds_below_spec (n : nat) (f : Z -> bool) (z : Z) :
  holds_below n f = true -> (0 <= z < Z.of_nat n)%Z -> f z = true.
Proof.
  induction n as [| k IH]; intros H Hz; [lia |].
  simpl in H. apply andb_true_iff in H. destruct H as [Hk Hr].
  destruct (Z.eq_dec z (Z.of_nat k)) as [-> | Hne]; [exact Hk |].
  apply IH; [exact Hr | lia].
Qed.

Lemma roi_products_checked :
  holds_below (Z.to_nat max_frame_side) roi_products_exact = true.
Proof. vm_compute. reflexivity. Qed.

Lemma roi_products (n : Z) :
  (0 <= n < max_frame_side)%Z -> roi_products_exact n = true.
Proof.
  intros Hn. apply (holds_below_spec (Z.to_nat max_frame_side)).
  - exact roi_products_checked.
  - unfold max_frame_side in *. lia.
Qed.

(** X18. For every frame whose sides are below 16384 pixels the float
    arithmetic of [region_of_interest] loses nothing: the four vertices
    are (w/10, h), (4w/10, h/2), (6w/10, h/2) and (9w/10, h) with integer
    division rounding down. *)
Theorem roi_vertices_exact (height width : Z) :
  (0 <= height < max_frame_side)%Z -> (0 <= width < max_frame_side)%Z ->
  roi_vertices height width
  = [ (width / 10, height); (4 * width / 10, height / 2);
      (6 * width / 10, height / 2); (9 * width / 10, height) ]%Z.
Proof.
  intros Hh Hw.
  pose proof (roi_products height Hh) as Ph.
  pose proof (roi_products width Hw) as Pw.
  unfold roi_products_exact in Ph, Pw.
  repeat match goal with
         | H : (_ && _)%bool = true |- _ =>
             apply andb_true_iff in H; destruct H
         end.
  repeat match goal with
         | H : (_ =? _)%Z = true |- _ => apply Z.eqb_eq in H
         end.
  unfold roi_vertices. congruence.
Qed.

Lemma roi_vertices_exact_witness :
  roi_vertices 480 640
  = [ (640 / 10, 480); (4 * 640 / 10, 480 / 2);
      (6 * 640 / 10, 480 / 2); (9 * 640 / 10, 480) ]%Z.
Proof.
  apply (roi_vertices_exact 480 640); unfold max_frame_side; lia.
Defined.

(** X19. For such a frame the polygon is a trapezoid inside the frame's
    width: its vertices go left to right, the two bottom vertices sit on
    the line y = height just below the last row, the two top vertices
    on the row height/2, the top edge is no longer than the bottom edge,
    and the trapezoid is symmetric about the vertical centre line to
    within one pixel. *)
Theorem roi_is_trapezoid (height width : Z) :
  (0 <= height < max_frame_side)%Z -> (0 < width < max_frame_side)%Z ->
  exists x0 x1 x2 x3 : Z,
    roi_vertices height width
    = [ (x0, height); (x1, height / 2); (x2, height / 2); (x3, height) ]%Z
    /\ (0 <= x0 <= x1)%Z /\ (x1 <= x2 <= x3)%Z /\ (x3 < width)%Z
    /\ (x2 - x1 <= x3 - x0)%Z
    /\ (width - 1 <= x0 + x3 <= width)%Z
    /\ (width - 1 <= x1 + x2 <= width)%Z.
Proof.
  intros Hh Hw.
  exists (width / 10)%Z, (4 * width / 10)%Z, (6 * width / 10)%Z,
    (9 * width / 10)%Z.
  split; [apply roi_vertices_exact; lia |].
  pose proof (Z.div_mod width 10 ltac:(lia)) as Hdm.
  pose proof (Z.mod_pos_bound width 10 ltac:(lia)) as Hm.
  set (q := (width / 10)%Z) in *. set (r := (width mod 10)%Z) in *.
  assert (E4 : (4 * width / 10 = 4 * q + 4 * r / 10)%Z).
  { replace (4 * width)%Z with ((4 * q) * 10 + 4 * r)%Z by lia.
    rewrite Z.div_add_l by lia. reflexivity. }
  assert (E6 : (6 * width / 10 = 6 * q + 6 * r / 10)%Z).
  { replace (6 * width)%Z with ((6 * q) * 10 + 6 * r)%Z by lia.
    rewrite Z.div_add_l by lia. reflexivity. }
  assert (E9 : (9 * width / 10 = 9 * q + 9 * r / 10)%Z).
  { replace (9 * width)%Z with ((9 * q) * 10 + 9 * r)%Z by lia.
    rewrite Z.div_add_l by lia. reflexivity. }
  assert (Hq : (0 <= q)%Z) by (apply Z.div_pos; lia).
  rewrite E4, E6, E9.
  assert (Hr : (r = 0 \/ r = 1 \/ r = 2 \/ r = 3 \/ r = 4 \/ r = 5 \/ r = 6
                \/ r = 7 \/ r = 8 \/ r = 9)%Z) by lia.
  clearbody q r. clear E4 E6 E9 Hm.
  repeat (destruct Hr as [Hr | Hr]); subst r;
    match goal with
    | |- context [(4 * ?k / 10)%Z] =>
        let a := eval vm_compute in (4 * k / 10)%Z in
        let b := eval vm_compute in (6 * k / 10)%Z in
        let c := eval vm_compute in (9 * k / 10)%Z in
        change (4 * k / 10)%Z with a; change (6 * k / 10)%Z with b;
        change (9 * k / 10)%Z with c
    end; lia.
Qed.

Lemma roi_is_trapezoid_witness :
  exists x0 x1 x2 x3 : Z,
    roi_vertices 480 640
    = [ (x0, 480); (x1, 480 / 2); (x2, 480 / 2); (x3, 480) ]%Z
    /\ (0 <= x0 <= x1)%Z /\ (x1 <= x2 <= x3)%Z /\ (x3 < 640)%Z
    /\ (x2 - x1 <= x3 - x0)%Z
    /\ (640 - 1 <= x0 + x3 <= 640)%Z
    /\ (640 - 1 <= x1 + x2 <= 640)%Z.
Proof.
  apply (roi_is_trapezoid 480 640); unfold max_frame_side; lia.
Defined.

(** ** The colour filter *)

Lemma map_combine_map {A B C : Type} (f : A -> B) (g : A * B -> C)
      (l : list A) :
  map g (combine l (map f l)) = map (fun x => g (x, f x)) l.
Proof. induction l as [| x l IH]; simpl; [reflexivity | now rewrite IH]. Qed.

Lemma bitwise_and_masked_self (p : Pixel) (m : Z) :
  bitwise_and_masked p p m = if (m =? 0)%Z then (0, 0, 0)%Z else p.
Proof.
  destruct p as [[p1 p2] p3]. unfold bitwise_and_masked.
  destruct (m =? 0)%Z; [reflexivity |]. now rewrite !Z.land_diag.
Qed.

Lemma filter_colors_pixelwise (cvt : Pixel -> Pixel) (image : Image) :
  filter_colors cvt image = map (map (keep_or_black cvt)) image.
Proof.
  unfold filter_colors. rewrite map_map.
  rewrite (map_combine_map
             (fun row => map (fun p => inRange p yellow_min yellow_max)
                             (map cvt row))
             (fun '(row, mrow) =>
                map (fun '(p, m) => bitwise_and_masked p p m)
                    (combine row mrow))).
  apply map_ext. intros row. rewrite map_map.
  rewrite (map_combine_map
             (fun p => inRange (cvt p) yellow_min yellow_max)
             (fun '(p, m) => bitwise_and_masked p p m)).
  apply map_ext. intros p. rewrite bitwise_and_masked_self.
  unfold keep_or_black, is_yellow.
  now destruct (inRange (cvt p) yellow_min yellow_max =? 0)%Z.
Qed.

Lemma keep_or_black_idempotent (cvt : Pixel -> Pixel) (p : Pixel) :
  keep_or_black cvt (keep_or_black cvt p) = keep_or_black cvt p.
Proof.
  unfold keep_or_black at 2 3. destruct (is_yellow (cvt p)) eqn:E.
  - unfold keep_or_black. now rewrite E.
  - unfold keep_or_black. now destruct (is_yellow (cvt (0, 0, 0)%Z)).
Qed.

(** X20. Whatever the colour conversion, [filter_colors] returns an image
    of the same shape in which every pixel is either the input pixel
    (where its converted value passes the yellow test) or black, and
    filtering an image twice gives the same as filtering it once. *)
Theorem filter_colors_keeps_or_blacks (cvt : Pixel -> Pixel) (image : Image) :
  filter_colors cvt image = map (map (keep_or_black cvt)) image
  /\ filter_colors cvt (filter_colors cvt image) = filter_colors cvt image.
Proof.
  split; [apply filter_colors_pixelwise |].
  rewrite !filter_colors_pixelwise, map_map.
  apply map_ext. intros row. rewrite map_map.
  apply map_ext. intros p. apply keep_or_black_idempotent.
Qed.

(** X21. On 8-bit values the upper bounds of the yellow range on
    saturation and value never reject anything: a converted pixel passes
    exactly when its hue is between 20 and 36 and its saturation and
    value are at least 50 and 185. *)
Theorem yellow_test_bounds (h s v : Z) :
  (s <= 255)%Z -> (v <= 255)%Z ->
  is_yellow (h, s, v) = true <-> (20 <= h <= 36 /\ 50 <= s /\ 185 <= v)%Z.
Proof.
  intros Hs Hv. unfold is_yellow, inRange, yellow_min, yellow_max.
  destruct (20 <=? h)%Z eqn:E1, (h <=? 36)%Z eqn:E2, (50 <=? s)%Z eqn:E3,
    (s <=? 255)%Z eqn:E4, (185 <=? v)%Z eqn:E5, (v <=? 255)%Z eqn:E6;
    simpl; split; intros H; try discriminate; try reflexivity; lia.
Qed.

Lemma yellow_test_bounds_witness :
  is_yellow (30, 255, 255)%Z = true
  <-> (20 <= 30 <= 36 /\ 50 <= 255 /\ 185 <= 255)%Z.
Proof. apply (yellow_test_bounds 30 255 255); lia. Defined.

(** ** More on the pending-command slot and on leaving the loop *)



(** ** The statement-level model and the sequential one *)

Import Threads.

Lemma tick_live (libm : float -> float -> float) (p : Program) (t : Tick) :
  main p <> M_exited ->
  tick libm p t
  = match t with
    | T_main lines key => main_tick libm lines key p
    | T_input line => input_tick line p
    | T_listener => listener_tick p
    | T_interrupt => interrupt_tick p
    end.
Proof. intros H. unfold tick. destruct (main p); congruence. Qed.

Lemma input_tick_main (l : string) (p : Program) :
  main (input_tick l p) = main p.
Proof.
  unfold input_tick. destruct (listener p); try reflexivity.
  repeat match goal with
         | |- context [if ?b then _ else _] => destruct b
         end; reflexivity.
Qed.

Lemma listener_tick_main (p : Program) : main (listener_tick p) = main p.
Proof. unfold listener_tick. now destruct (listener p). Qed.

(** A line that the listener handles without the main thread running in
    between has the effect of [handle_key_input]. *)
Lemma line_alone (libm : float -> float -> float) (p : Program) (l : string) :
  listener p = L_input -> main p <> M_exited ->
  let p' := play libm p [T_input l; T_listener; T_listener; T_listener] in
  shared p' = handle_key_input l (shared p)
  /\ main p' = main p
  /\ listener p' = (if user_input_of l =? "q" then L_returned else L_input).
Proof.
  intros Hl Hm. unfold play. cbn [fold_left].
  rewrite (tick_live libm p (T_input l) Hm). cbv iota.
  set (p1 := input_tick l p).
  assert (Hm1 : main p1 = main p) by apply input_tick_main.
  rewrite (tick_live libm p1 T_listener) by congruence. cbv iota.
  set (p2 := listener_tick p1).
  assert (Hm2 : main p2 = main p)
    by (unfold p2; now rewrite listener_tick_main).
  rewrite (tick_live libm p2 T_listener) by congruence. cbv iota.
  set (p3 := listener_tick p2).
  assert (Hm3 : main p3 = main p)
    by (unfold p3; now rewrite listener_tick_main).
  rewrite (tick_live libm p3 T_listener) by congruence. cbv iota.
  split; [| split; [now rewrite listener_tick_main |]].
  - unfold p3, p2, p1, input_tick, handle_key_input, user_input_of.
    rewrite Hl. destruct p as [st lp m b w]. cbn [shared].
    remember (PyStr.lower (PyStr.strip l)) as u eqn:Hu. clear Hu.
    destruct st as [f c pa se sc cap sto clo lr mr].
    destruct (u =? "q"); [reflexivity |].
    destruct (PyStr.mem u drive_commands); [reflexivity |].
    destruct (u =? "p"); [reflexivity |].
    cbn in Hl. subst lp. reflexivity.
  - unfold p3, p2, p1, input_tick, user_input_of. rewrite Hl.
    destruct p as [st lp m b w].
    remember (PyStr.lower (PyStr.strip l)) as u eqn:Hu. clear Hu.
    destruct (u =? "q"); [reflexivity |].
    destruct (PyStr.mem u drive_commands); [reflexivity |].
    destruct (u =? "p"); [reflexivity |].
    cbn in Hl. subst lp. reflexivity.
Qed.

Lemma ideal_frame_zero (lines : option (list Segment)) :
  segment_count lines = 0 ->
  angle_frame (calculate_angle lines) = "A0" ++ PyStr.LF.
Proof.
  intros H.
  assert (E : calculate_angle lines = 0%R).
  { destruct lines as [[| line ls] |]; simpl in *;
      [reflexivity | discriminate | reflexivity]. }
  rewrite E. unfold angle_frame. now rewrite (int_of_float_IZR 0).
Qed.

Lemma f64_frame_zero (libm : float -> float -> float)
      (lines : option (list Segment)) :
  segment_count lines = 0 ->
  F64.angle_frame (F64.calculate_angle libm lines) = Some ("A0" ++ PyStr.LF).
Proof.
  intros H. destruct lines as [[| line ls] |]; simpl in *;
    [reflexivity | discriminate | reflexivity].
Qed.

Lemma run_pass_S (libm : float -> float -> float) (fuel : nat)
      (lines : option (list Segment)) (key : Z) (p : Program) :
  run_pass libm (S fuel) lines key p
  = match main (main_tick libm lines key p) with
    | M_flag | M_exited => main_tick libm lines key p
    | _ => run_pass libm fuel lines key (main_tick libm lines key p)
    end.
Proof. reflexivity. Qed.

Ltac main_statement :=
  rewrite run_pass_S; unfold main_tick;
  cbn [main shared listener picam2_bound windows_destroyed
       key_input_flag command paused set_flag set_input ser_write
       capture_array];
  unfold goto_main, update, exit;
  cbn [main shared listener picam2_bound windows_destroyed
       key_input_flag command paused set_flag set_input ser_write
       capture_array].

(** A pass of the main loop that the listener does not run into, on a
    frame without segments, has the effect of the sequential [step]. *)
Lemma pass_alone (libm : float -> float -> float) (p : Program)
      (lines : option (list Segment)) (key : Z) :
  main p = M_flag -> picam2_bound p = true ->
  main_running (shared p) = true -> segment_count lines = 0 ->
  shared (run_pass libm 14 lines key p)
  = step (shared p) (Iteration lines key).
Proof.
  intros Hm Hb Hr Hz. destruct p as [st l m b w].
  cbn [main picam2_bound shared] in *. subst m b.
  assert (E := f64_frame_zero libm lines Hz).
  unfold step, loop_body, poll, perceive, send_angle_to_arduino.
  rewrite Hr, (ideal_frame_zero lines Hz). clear Hr Hz.
  destruct st as [f c pa se sc cap sto clo lr mr].
  cbn [key_input_flag command paused set_flag set_input ser_write].
  destruct (Z.land key 255 =? 113)%Z eqn:Hk;
    destruct f; [destruct (c =? "q") eqn:Hq; [| destruct (c =? "p") eqn:Hp] | |
                 destruct (c =? "q") eqn:Hq; [| destruct (c =? "p") eqn:Hp] |];
    destruct pa;
    repeat (main_statement; rewrite ?Hq, ?Hp, ?E, ?Hk;
            unfold goto_main, update, exit;
            cbn [main shared listener picam2_bound windows_destroyed
                 key_input_flag command paused set_flag set_input ser_write
                 capture_array]);
    reflexivity.
Qed.

(** ** An invariant of every schedule *)

Lemma toggle_bytes_snoc (log : list string) (w : string) :
  toggle_bytes (log ++ [w]) = toggle_bytes log + (if "p" =? w then 1 else 0).
Proof.
  unfold toggle_bytes. rewrite filter_app, length_app. cbn [filter].
  now destruct ("p" =? w).
Qed.

Lemma angle_frames_snoc (log : list string) (w : string) :
  angle_frames (log ++ [w])
  = angle_frames log + (if is_angle_frame w then 1 else 0).
Proof.
  unfold angle_frames. rewrite filter_app, length_app. cbn [filter].
  now destruct (is_angle_frame w).
Qed.

Lemma frame_payload (x : float) (w : string) :
  F64.angle_frame x = Some w ->
  is_frame w /\ is_angle_frame w = true /\ ("p" =? w) = false.
Proof.
  unfold F64.angle_frame. destruct (PyFloat.to_int x) as [n |]; [| discriminate].
  intros [= <-]. split; [now exists n |]. split.
  - unfold is_angle_frame. simpl.
    now destruct (PyStr.str_of_int n ++ PyStr.LF).
  - reflexivity.
Qed.

Lemma command_payload (c : string) :
  valid_command c -> is_angle_frame c = false /\ ("p" =? c) = false.
Proof.
  intros H. split; [now apply valid_command_not_angle |].
  apply String.eqb_neq. intros E. symmetry in E.
  now apply (valid_command_not_toggle c H).
Qed.

Lemma Sound_boot : Sound boot.
Proof.
  split; cbn; try reflexivity.
  - now left.
  - discriminate.
  - constructor.
Qed.


Ltac tick_cbn :=
  cbn [main_tick listener_tick input_tick interrupt_tick update goto_main
       goto_listener exit stop_camera close_camera close_serial end_main
       start_listener set_flag set_input set_paused ser_write capture_array stop_listener
       send_pause_resume_to_arduino shared listener main picam2_bound
       windows_destroyed key_input_flag command paused ser ser_closed
       picam2_captured picam2_stopped picam2_closed listener_running
       main_running starting depositing mid_toggle frames_account] in *.

Ltac tick_if :=
  repeat match goal with
         | |- context [if ?b then _ else _] => destruct b eqn:?; tick_cbn
         | |- context [match F64.angle_frame ?x with _ => _ end] =>
             destruct (F64.angle_frame x) eqn:?; tick_cbn
         end.

Lemma Sound_main_tick (libm : float -> float -> float)
      (lines : option (list Segment)) (key : Z) (p : Program) :
  Sound p -> Sound (main_tick libm lines key p).
Proof.
  intros [Hs Hc Hd Hw Hp Hf]. destruct p as [st l m b w].
  destruct st as [f c pa se sc cap sto clo lr mr]. tick_cbn.
  destruct m; tick_cbn; tick_if.
  all: try (split; tick_cbn; auto; lia).
  - (* the listener starts *)
    rewrite (Hs eq_refl) in Hp. split; tick_cbn; auto; discriminate.
  - (* line 201 *)
    destruct (command_payload c Hc) as [Ha Ht].
    split; tick_cbn; auto.
    + apply Forall_app. split; [exact Hw |]. constructor; [| constructor].
      right. now left.
    + rewrite toggle_bytes_snoc, Ht, Nat.add_0_r. exact Hp.
    + rewrite angle_frames_snoc, Ha, Nat.add_0_r. exact Hf.
  - (* line 234 *)
    match goal with H : F64.angle_frame _ = Some _ |- _ =>
      destruct (frame_payload _ _ H) as (Hfr & Ha & Ht) end.
    split; tick_cbn; auto.
    + apply Forall_app. split; [exact Hw |]. constructor; [| constructor].
      right. now right.
    + rewrite toggle_bytes_snoc, Ht, Nat.add_0_r. exact Hp.
    + rewrite angle_frames_snoc, Ha. lia.
Qed.

Lemma Sound_input_tick (line : string) (p : Program) :
  Sound p -> Sound (input_tick line p).
Proof.
  intros [Hs Hc Hd Hw Hp Hf]. destruct p as [st l m b w].
  destruct st as [f c pa se sc cap sto clo lr mr]. tick_cbn.
  destruct l; tick_cbn; try (split; tick_cbn; auto; fail).
  tick_if.
  all: split; tick_cbn; auto; try discriminate;
    try (intros Hm; specialize (Hs Hm); discriminate).
  intros c' [= <-]. now apply mem_In.
Qed.

Lemma Sound_listener_tick (p : Program) : Sound p -> Sound (listener_tick p).
Proof.
  intros [Hs Hc Hd Hw Hp Hf]. destruct p as [st l m b w].
  destruct st as [f c pa se sc cap sto clo lr mr]. tick_cbn.
  destruct l; tick_cbn.
  all: try (split; tick_cbn; auto; fail).
  all: split; tick_cbn; auto; try discriminate;
    try (intros Hm; specialize (Hs Hm); discriminate).
  - (* line 165 *) right. now left.
  - (* line 169 *) right. right. now apply Hd.
  - (* line 171 *) rewrite Hp. now destruct (Nat.odd (toggle_bytes se)).
  - (* line 173 *)
    apply Forall_app. split; [exact Hw |]. constructor; [| constructor].
    now left.
  - rewrite toggle_bytes_snoc, Hp. cbn [String.eqb Ascii.eqb Bool.eqb].
    rewrite Nat.add_1_r, Nat.odd_succ, <- Nat.negb_odd.
    now destruct (Nat.odd (toggle_bytes se)).
  - unfold frames_account in *. tick_cbn.
    rewrite angle_frames_snoc. change (is_angle_frame "p") with false.
    rewrite Nat.add_0_r. exact Hf.
Qed.

Lemma Sound_interrupt_tick (p : Program) : Sound p -> Sound (interrupt_tick p).
Proof.
  intros [Hs Hc Hd Hw Hp Hf]. destruct p as [st l m b w].
  destruct st as [f c pa se sc cap sto clo lr mr]. tick_cbn.
  destruct m; tick_cbn; split; tick_cbn; auto; try discriminate; lia.
Qed.

Lemma Sound_tick (libm : float -> float -> float) (p : Program) (t : Tick) :
  Sound p -> Sound (tick libm p t).
Proof.
  intros H. unfold tick.
  assert (H' : Sound match t with
                     | T_main lines key => main_tick libm lines key p
                     | T_input line => input_tick line p
                     | T_listener => listener_tick p
                     | T_interrupt => interrupt_tick p
                     end).
  { destruct t; [apply Sound_main_tick | apply Sound_input_tick
                 | apply Sound_listener_tick | apply Sound_interrupt_tick];
      exact H. }
  destruct (main p); assumption.
Qed.

Lemma Sound_play (libm : float -> float -> float) (ts : list Tick) (p : Program) :
  Sound p -> Sound (play libm p ts).
Proof.
  unfold play. revert p. induction ts as [| t ts IH]; intros p H; simpl.
  - exact H.
  - apply IH. now apply Sound_tick.
Qed.

(** ** What reaches the wire, statement by statement *)

(** X1. Whatever the schedule of the two threads, every payload written
    to the serial port is the toggle byte, the content of [command] (the
    empty string, [q] or a drive character) or an angle frame; the quit
    character does reach the port when the listener stores it between
    the test of line 196 and the write of line 201. *)
Theorem wire_carries_protocol_payloads
        (libm : float -> float -> float) (ts : list Tick) :
  Forall on_the_wire (ser (shared (play libm boot ts)))
  /\ ser (shared (play libm boot quit_written)) = ["q"].
Proof.
  split; [| reflexivity]. apply snd_wire, Sound_play, Sound_boot.
Qed.

(** X2. Whatever the schedule, the number of frames captured is the
    number of angle frames sent, or one more; it is one more while the
    main thread stands between the capture of line 212 and the write of
    line 234, and stays one more when an interrupt arrives there. *)
Theorem captures_lead_angle_frames
        (libm : float -> float -> float) (ts : list Tick) :
  let p := play libm boot ts in
  let sent := angle_frames (ser (shared p)) in
  let got := picam2_captured (shared p) in
  (if in_flight (main p) then got = S sent else sent <= got <= S sent)
  /\ (let q := play libm boot interrupted_frame in
      main q = M_exited /\ picam2_captured (shared q) = 1
      /\ ser (shared q) = []).
Proof.
  intros p sent got. split; [| repeat split].
  pose proof (snd_frames p (Sound_play libm ts boot Sound_boot)) as H.
  unfold frames_account in H. fold sent got in H.
  destruct (main p); cbn [in_flight]; lia.
Qed.

(** X3. Whatever the schedule, [paused] is the parity of the number of
    toggle bytes written, except between lines 171 and 173 of the
    listener, where the mode has changed and the byte is not yet
    written. *)
Theorem mode_is_parity_of_toggle_bytes
        (libm : float -> float -> float) (ts : list Tick) :
  let p := play libm boot ts in
  paused (shared p)
  = xorb (Nat.odd (toggle_bytes (ser (shared p)))) (mid_toggle (listener p)).
Proof. apply snd_paused, Sound_play, Sound_boot. Qed.

(** ** Races between the two threads *)

(** C1. The operator enters the toggle after the main thread has found
    [paused] false at line 206: when the main thread reaches line 234 the
    mode is ManualPaused, the Arduino has been sent the toggle byte, and
    the angle frame is written all the same. *)
Theorem angle_frame_sent_while_paused (libm : float -> float -> float) :
  let before := play libm boot toggle_after_test in
  let after := tick libm before (T_main None 0%Z) in
  (mode (shared before) = ManualPaused
   /\ ser (shared before) = ["p"]
   /\ main before = M_send_angle None)
  /\ (mode (shared after) = ManualPaused
      /\ ser (shared after) = ["p"; "A0" ++ PyStr.LF]).
Proof. repeat split. Qed.

Lemma Deaf_tick (libm : float -> float -> float) (p : Program) (t : Tick) :
  quiet libm t = true -> Deaf libm p -> Deaf libm (tick libm p t).
Proof.
  intros Hq [Hl Hf Hb Hr Hm Hp].
  assert (Hlive : main p <> M_exited) by (intros E; now rewrite E in Hp).
  rewrite (tick_live libm p t Hlive).
  destruct p as [st l m b w].
  destruct st as [f c pa se sc cap sto clo lr mr].
  unfold released in *. cbn [looping] in *. tick_cbn. subst l f b mr.
  destruct t as [lines key | line | |]; cbn [quiet] in Hq.
  - apply andb_prop in Hq. destruct Hq as [Hk Hfr].
    apply negb_true_iff in Hk.
    destruct m; cbn [looping] in Hp; try discriminate; tick_cbn.
    + split; tick_cbn; auto.
    + destruct pa; split; tick_cbn; auto.
    + split; tick_cbn; auto.
    + split; tick_cbn; auto.
    + destruct (F64.angle_frame (F64.calculate_angle libm lines0));
        [| discriminate].
      split; tick_cbn; auto.
    + rewrite Hk. split; tick_cbn; auto.
  - split; tick_cbn; auto.
  - split; tick_cbn; auto.
  - discriminate.
Qed.

Lemma Deaf_play (libm : float -> float -> float) (ts : list Tick) (p : Program) :
  Forall (fun t => quiet libm t = true) ts ->
  Deaf libm p -> Deaf libm (play libm p ts).
Proof.
  unfold play. intros H. revert p.
  induction H as [| t ts Ht _ IH]; intros p Hp; simpl.
  - exact Hp.
  - apply IH. now apply Deaf_tick.
Qed.

Lemma Deaf_quit_overtaken (libm : float -> float -> float) :
  Deaf libm (play libm boot quit_overtaken).
Proof. split; try reflexivity. repeat split. Qed.

(** C9. The operator enters the quit command and the main thread polls
    between lines 164 and 165 of the listener: the flag is reset, the
    command stored afterwards is never looked at, the listener has
    returned, and as long as nothing else ends the loop (no interrupt,
    no [q] key in the window, no failing [int]) the main thread stays in
    it and releases nothing.  An interrupt before the camera object
    exists ends the program with nothing released, the serial port
    included, and an interrupt inside the [finally] block skips the
    calls that remain. *)
Theorem quit_lost_and_release_skipped
        (libm : float -> float -> float) (ts : list Tick) :
  Forall (fun t => quiet libm t = true) ts ->
  let lost := play libm boot quit_overtaken in
  let later := play libm lost ts in
  let early := play libm boot interrupted_startup in
  let twice := play libm boot interrupted_cleanup in
  (listener lost = L_returned /\ command (shared lost) = "q"
   /\ key_input_flag (shared lost) = false)
  /\ (looping libm (main later) = true
      /\ main_running (shared later) = true
      /\ released 0 (shared later))
  /\ (main early = M_exited /\ main_running (shared early) = false
      /\ released 0 (shared early))
  /\ (main twice = M_exited /\ picam2_stopped (shared twice) = 1
      /\ picam2_closed (shared twice) = 0 /\ ser_closed (shared twice) = 0).
Proof.
  intros Hq lost later early twice.
  split; [repeat split |]. split; [| repeat split].
  destruct (Deaf_play libm ts lost Hq (Deaf_quit_overtaken libm))
    as [_ _ _ Hr Hm Hp].
  auto.
Qed.

Lemma quit_lost_and_release_skipped_witness :
  let ts := [T_main None 0%Z; T_input "w"; T_listener; T_main None 0%Z;
             T_main None 0%Z; T_main (Some [(0, 20, 0, 0)%Z]) 0%Z;
             T_main None 0%Z; T_main None 255%Z] in
  let lost := play no_libm boot quit_overtaken in
  let later := play no_libm lost ts in
  let early := play no_libm boot interrupted_startup in
  let twice := play no_libm boot interrupted_cleanup in
  (listener lost = L_returned /\ command (shared lost) = "q"
   /\ key_input_flag (shared lost) = false)
  /\ (looping no_libm (main later) = true
      /\ main_running (shared later) = true
      /\ released 0 (shared later))
  /\ (main early = M_exited /\ main_running (shared early) = false
      /\ released 0 (shared early))
  /\ (main twice = M_exited /\ picam2_stopped (shared twice) = 1
      /\ picam2_closed (shared twice) = 0 /\ ser_closed (shared twice) = 0).
Proof.
  apply (quit_lost_and_release_skipped no_libm
           [T_main None 0%Z; T_input "w"; T_listener; T_main None 0%Z;
            T_main None 0%Z; T_main (Some [(0, 20, 0, 0)%Z]) 0%Z;
            T_main None 0%Z; T_main None 255%Z]).
  repeat constructor.
Defined.

(** ** The steering angle on binary64 *)

Lemma add_angle_orientation_f64 (libm : float -> float -> float)
      (a : float) (line : Segment) :
  F64.add_angle libm a line = PrimFloat.add a (orientation_f64 libm line).
Proof. now destruct line as [[[x1 y1] x2] y2]. Qed.

Lemma angle_sum_fsum (libm : float -> float -> float)
      (ls : list Segment) (a : float) :
  fold_left (F64.add_angle libm) ls a
  = fold_left PrimFloat.add (map (orientation_f64 libm) ls) a.
Proof.
  revert a. induction ls as [| line ls IH]; intros a; simpl.
  - reflexivity.
  - now rewrite IH, add_angle_orientation_f64.
Qed.

Lemma single_segment_angle_f64 (libm : float -> float -> float)
      (line : Segment) :
  F64.calculate_angle libm (Some [line])
  = F64.degrees
      (PrimFloat.div (PrimFloat.add 0%float (orientation_f64 libm line))
                     1%float).
Proof.
  unfold F64.calculate_angle. cbn [List.length Nat.eqb fold_left].
  now rewrite add_angle_orientation_f64.
Qed.

Local Open Scope R_scope.

(** C6, the claim as worded, fails: two horizontal segments and a
    vertical one have the mean orientation 30 degrees, and the program
    computes the double just below 30 and sends A29. *)
Lemma mean_of_three_below_thirty :
  let ls := [(0, 0, 5, 0)%Z; (0, 0, 5, 0)%Z; (0, 0, 0, 4)%Z] in
  mean_orientation_degrees ls = 30
  /\ PyFloat.to_R (F64.calculate_angle no_libm (Some ls)) < 30
  /\ angle_frame (mean_orientation_degrees ls) = ("A30" ++ PyStr.LF)%string
  /\ F64.angle_frame (F64.calculate_angle no_libm (Some ls))
     = Some ("A29" ++ PyStr.LF)%string.
Proof.
  intros ls.
  assert (E : mean_orientation_degrees ls = 30).
  { destruct (compass_orientations 0 0 5) as (H0 & _); [lia |].
    destruct (compass_orientations 0 0 4) as (_ & _ & H2 & _); [lia |].
    unfold mean_orientation_degrees, ls. cbn [map Rsum fold_right List.length].
    change (0 + 5)%Z with 5%Z in H0. change (0 + 4)%Z with 4%Z in H2.
    rewrite H0, H2. simpl INR. field. exact PI_neq0. }
  split; [exact E |]. split; [| split].
  - assert (F : Prim2SF (F64.calculate_angle no_libm (Some ls))
                = S754_finite false 8444249301319679 (-48))
      by (vm_compute; reflexivity).
    unfold PyFloat.to_R. rewrite F.
    change (0 <=? -48)%Z with false. cbv iota zeta.
    change (2 ^ (- -48))%Z with 281474976710656%Z. lra.
  - rewrite E. unfold angle_frame. now rewrite (int_of_float_IZR 30).
  - vm_compute. reflexivity.
Qed.

Local Close Scope R_scope.

(** C6, as the program computes it.  On a non-empty list the angle is
    the float64 sum of the segments' orientations, taken from left to
    right, divided by their number and multiplied by the double 180/pi,
    every operation rounding to nearest.  Where the C library returns
    the doubles nearest to pi/4 and -pi/4 on the two diagonals, the
    segment from (0,0) to (10,10) alone gives 45.0 and the segment from
    (0,0) to (10,-10) alone gives -45.0. *)
Theorem angle_is_float_mean_orientation
        (libm : float -> float -> float) (ls : list Segment) :
  ls <> [] ->
  libm 10%float 10%float = PyFloat.quarter_pi ->
  libm (-10)%float 10%float = PrimFloat.opp PyFloat.quarter_pi ->
  F64.calculate_angle libm (Some ls)
  = PrimFloat.mul
      (PrimFloat.div (fsum (map (orientation_f64 libm) ls))
                     (PyFloat.of_Z (Z.of_nat (List.length ls))))
      (PrimFloat.div 180%float PyFloat.pi)
  /\ F64.calculate_angle libm (Some [(0, 0, 10, 10)%Z]) = 45%float
  /\ F64.calculate_angle libm (Some [(0, 0, 10, -10)%Z]) = (-45)%float.
Proof.
  intros Hne Hup Hdown. split; [| split].
  - destruct ls as [| line ls]; [contradiction |].
    unfold F64.calculate_angle.
    change (List.length (line :: ls) =? 0)%nat with false. cbv iota zeta.
    now rewrite angle_sum_fsum.
  - rewrite single_segment_angle_f64.
    change (orientation_f64 libm (0, 0, 10, 10)%Z)
      with (libm 10%float 10%float).
    rewrite Hup. reflexivity.
  - rewrite single_segment_angle_f64.
    change (orientation_f64 libm (0, 0, 10, -10)%Z)
      with (libm (-10)%float 10%float).
    rewrite Hdown. reflexivity.
Qed.

Lemma angle_is_float_mean_orientation_witness :
  let ls := [(0, 0, 10, 10)%Z; (3, 7, 3, 2)%Z] in
  F64.calculate_angle diagonal_libm (Some ls)
  = PrimFloat.mul
      (PrimFloat.div (fsum (map (orientation_f64 diagonal_libm) ls))
                     (PyFloat.of_Z (Z.of_nat (List.length ls))))
      (PrimFloat.div 180%float PyFloat.pi)
  /\ F64.calculate_angle diagonal_libm (Some [(0, 0, 10, 10)%Z]) = 45%float
  /\ F64.calculate_angle diagonal_libm (Some [(0, 0, 10, -10)%Z])
     = (-45)%float.
Proof.
  apply (angle_is_float_mean_orientation diagonal_libm
           [(0, 0, 10, 10)%Z; (3, 7, 3, 2)%Z]).
  - discriminate.
  - reflexivity.
  - reflexivity.
Defined.


Local Open Scope R_scope.




Local Close Scope R_scope.



